(** * Sprite segmentation of monster-forge (src/services/spriteExtractor.js)

    Shallow embedding of the [SpriteExtractor] class.  JS numbers used as
    pixel coordinates and counters are modelled as [Z]; loops are folds over
    explicit integer ranges; a decoded image (and every canvas read back with
    [getImageData]) is an [ImageData]: width, height and the RGBA byte array
    [data], row-major, 4 bytes per pixel.  Reading [data] out of range yields
    JS [undefined], modelled as [None]; every comparison with it is false. *)

From Stdlib Require Import ZArith List Bool Lia.
From Stdlib Require Import FunctionalExtensionality Sorted Permutation.
From Stdlib Require String.
Import String.StringSyntax.
Import ListNotations.
Open Scope Z_scope.

(** ** Data model *)

Record ImageData := mkImageData {
  width : Z;
  height : Z;
  bytes : Z -> Z   (* data[idx] for 0 <= idx < data.length *)
}.

(** [data.length] of a Uint8ClampedArray of RGBA pixels. *)
Definition data_length (img : ImageData) : Z := width img * height img * 4.

(** [data[idx]]: [undefined] outside the array. *)
Definition data_at (img : ImageData) (idx : Z) : option Z :=
  if (0 <=? idx) && (idx <? data_length img) then Some (bytes img idx) else None.

(** [data[idx] > 50] and [data[idx] < 128], with [undefined] comparing false. *)
Definition gt (v : option Z) (k : Z) : bool :=
  match v with Some b => k <? b | None => false end.
Definition lt (v : option Z) (k : Z) : bool :=
  match v with Some b => b <? k | None => false end.

Record Region := mkRegion { rx : Z; ry : Z; rwidth : Z; rheight : Z }.

(** The constructor options [cellSize], [minPixelThreshold], [maxSprites]. *)
Record SpriteExtractor := mkSpriteExtractor {
  cellSize : Z;
  minPixelThreshold : Z;
  maxSprites : Z
}.

(** [options.x || default]: a missing or zero option takes the default. *)
Definition js_or (o : option Z) (d : Z) : Z :=
  match o with Some v => if v =? 0 then d else v | None => d end.

Definition new_SpriteExtractor (cs mpt ms : option Z) : SpriteExtractor :=
  mkSpriteExtractor (js_or cs 64) (js_or mpt 500) (js_or ms 64).

(** [export default new SpriteExtractor()] *)
Definition default_extractor : SpriteExtractor := new_SpriteExtractor None None None.

(** Result of [detectSpriteType]. *)
Inductive Detection :=
| DSingle                                  (* { type: 'single' } *)
| DRegions (regions : list Region) (w h : Z) (* { type: 'regions', regions, width, height } *)
| DGrid (cols rows cellSize : Z).          (* { type: 'grid', cols, rows, cellSize } *)

(** Result of [detectGrid]. *)
Record GridInfo := mkGridInfo { g_cols : Z; g_rows : Z; g_cellSize : Z }.

(** The distinguishing field of an emitted sprite: [type: 'single'],
    [region] or [gridPosition]. *)
Inductive SpriteKind :=
| KSingle
| KRegion (r : Region)
| KGrid (row col : Z).

(** An element of the array returned by [extractFromImage].  The [base64]
    field is [canvas.toDataURL('image/png')], the PNG encoding of the same
    canvas as [imageData]; it is a function of [imageData] and is left out. *)
Record Sprite := mkSprite {
  sp_imageData : ImageData;
  sp_index : Z;
  sp_kind : SpriteKind
}.

(** ** Loops *)

Fixpoint zrange_from (lo : Z) (n : nat) : list Z :=
  match n with
  | O => []
  | S n' => lo :: zrange_from (lo + 1) n'
  end.

(** The values of [for (let i = lo; i < hi; i++)]. *)
Definition zrange (lo hi : Z) : list Z := zrange_from lo (Z.to_nat (hi - lo)).

(** ** Canvas primitives

    A fresh canvas of [w] by [h] pixels is fully transparent (all bytes 0).
    [drawImage(src, sx, sy, sw, sh, dx, dy, sw, sh)] at scale 1 copies the
    source rectangle to the destination rectangle; source pixels outside
    [src] are clipped away and leave the destination untouched. *)

Definition blank (w h : Z) : ImageData := mkImageData w h (fun _ => 0).

Definition drawImage (dst src : ImageData) (sx sy sw sh dx dy : Z) : ImageData :=
  mkImageData (width dst) (height dst) (fun idx =>
    let p := idx / 4 in
    let c := idx mod 4 in
    let i := p mod width dst in
    let j := p / width dst in
    let x := sx + (i - dx) in
    let y := sy + (j - dy) in
    if (dx <=? i) && (i <? dx + sw) && (dy <=? j) && (j <? dy + sh)
       && (0 <=? x) && (x <? width src) && (0 <=? y) && (y <? height src)
    then bytes src ((y * width src + x) * 4 + c)
    else bytes dst idx).

(** [ctx.drawImage(img, 0, 0)] on a canvas of the image's size, read back
    with [getImageData]: the decoded image itself. *)
Definition canvas_of (img : ImageData) : ImageData :=
  drawImage (blank (width img) (height img)) img 0 0 (width img) (height img) 0 0.

(** ** analyzeImage *)

Record Analysis := mkAnalysis {
  hasTransparency : bool;
  hasTransparentEdges : bool;
  transparentPixels : Z;
  edgeTransparent : Z;
  totalEdgePixels : Z;
  imageData : ImageData
}.

(** Loop state of [analyzeImage]:
    (transparentPixels, opaquePixels, edgeTransparent, totalEdgePixels). *)
Definition analyze_pixel (data : ImageData) (w h : Z)
    (st : Z * Z * Z * Z) (y x : Z) : Z * Z * Z * Z :=
  let '(tp, op, et, te) := st in
  let alpha := data_at data ((y * w + x) * 4 + 3) in
  let '(tp, op) := if lt alpha 128 then (tp + 1, op) else (tp, op + 1) in
  let isEdge := (x <? 5) || (w - 5 <=? x) || (y <? 5) || (h - 5 <=? y) in
  if isEdge then (tp, op, if lt alpha 128 then et + 1 else et, te + 1)
  else (tp, op, et, te).

(** [transparentRatio > 0.05] and [edgeTransparentRatio > 0.5] are compared
    exactly, as rationals: [t / total > 1/20] iff [20 t > total] (a zero
    total gives NaN or the guarded 0, both false). *)
Definition analyzeImage (img : ImageData) : Analysis :=
  let data := canvas_of img in
  let w := width img in
  let h := height img in
  let '(tp, op, et, te) :=
    fold_left (fun st y => fold_left (fun st x => analyze_pixel data w h st y x)
                                     (zrange 0 w) st)
              (zrange 0 h) (0, 0, 0, 0) in
  let totalPixels := w * h in
  {| hasTransparency := totalPixels <? 20 * tp;
     hasTransparentEdges := if 0 <? te then te <? 2 * et else false;
     transparentPixels := tp;
     edgeTransparent := et;
     totalEdgePixels := te;
     imageData := data |}.

(** ** detectGrid *)

Definition possibleSizes : list Z := [128; 96; 64; 48; 32; 16].

Fixpoint detectGrid_loop (width height : Z) (sizes : list Z) : option GridInfo :=
  match sizes with
  | [] => None
  | size :: rest =>
      if (width mod size =? 0) && (height mod size =? 0) then
        let cols := width / size in
        let rows := height / size in
        if (2 <=? cols) && (1 <=? rows) && (2 <=? cols * rows) && (cols * rows <=? 64)
        then Some (mkGridInfo cols rows size)
        else detectGrid_loop width height rest
      else detectGrid_loop width height rest
  end.

Definition detectGrid (width height : Z) : option GridInfo :=
  detectGrid_loop width height possibleSizes.

(** ** findGaps *)

Definition minGapSize : Z := 8.

(** One step of the gap scan at coordinate [i], whose row (column) is
    [empty] or not; the state is [(gapStart, gaps)]. *)
Definition gap_step (st : Z * list Z) (i : Z) (empty : bool) : Z * list Z :=
  let '(gapStart, gaps) := st in
  if empty then (if gapStart =? -1 then i else gapStart, gaps)
  else (-1, if negb (gapStart =? -1) && (minGapSize <=? i - gapStart)
            then gaps ++ [(gapStart + i) / 2] else gaps).

Inductive Direction := Horizontal | Vertical.

(** [rowEmpty]: the inner loop breaks at the first pixel with alpha > 50. *)
Definition rowEmpty (data : ImageData) (width : Z) (y : Z) : bool :=
  negb (existsb (fun x => gt (data_at data ((y * width + x) * 4 + 3)) 50) (zrange 0 width)).

Definition colEmpty (data : ImageData) (width height : Z) (x : Z) : bool :=
  negb (existsb (fun y => gt (data_at data ((y * width + x) * 4 + 3)) 50) (zrange 0 height)).

Definition findGaps (data : ImageData) (width height : Z) (direction : Direction) : list Z :=
  match direction with
  | Horizontal =>
      snd (fold_left (fun st y => gap_step st y (rowEmpty data width y))
                     (zrange 0 height) (-1, []))
  | Vertical =>
      snd (fold_left (fun st x => gap_step st x (colEmpty data width height x))
                     (zrange 0 width) (-1, []))
  end.

(** ** regionHasContent *)

(** The loop counts pixels with alpha > 50 and returns [true] as soon as
    the count exceeds 100. *)
Fixpoint count_exceeds (data : ImageData) (idxs : list Z) (count : Z) : bool :=
  match idxs with
  | [] => false
  | idx :: rest =>
      if gt (data_at data (idx + 3)) 50 then
        if 100 <? count + 1 then true else count_exceeds data rest (count + 1)
      else count_exceeds data rest count
  end.

(** Pixel offsets [(y * imgWidth + x) * 4] of a region, row-major. *)
Definition region_offsets (imgWidth : Z) (region : Region) : list Z :=
  flat_map (fun y => map (fun x => (y * imgWidth + x) * 4)
                         (zrange (rx region) (rx region + rwidth region)))
           (zrange (ry region) (ry region + rheight region)).

Definition regionHasContent (data : ImageData) (imgWidth : Z) (region : Region) : bool :=
  count_exceeds data (region_offsets imgWidth region) 0.

(** ** trimRegion *)

Definition padding : Z := 2.

(** Loop state: (minX, minY, maxX, maxY). *)
Definition trim_pixel (data : ImageData) (imgWidth : Z)
    (st : Z * Z * Z * Z) (y x : Z) : Z * Z * Z * Z :=
  let '(minX, minY, maxX, maxY) := st in
  if gt (data_at data ((y * imgWidth + x) * 4 + 3)) 50
  then (Z.min minX x, Z.min minY y, Z.max maxX x, Z.max maxY y)
  else st.

Definition trim_bounds (data : ImageData) (imgWidth imgHeight : Z) (region : Region)
    : Z * Z * Z * Z :=
  fold_left (fun st y =>
      fold_left (fun st x => trim_pixel data imgWidth st y x)
                (zrange (rx region) (Z.min (rx region + rwidth region) imgWidth)) st)
    (zrange (ry region) (Z.min (ry region + rheight region) imgHeight))
    (rx region + rwidth region, ry region + rheight region, rx region, ry region).

Definition trimRegion (data : ImageData) (imgWidth imgHeight : Z) (region : Region)
    : option Region :=
  let '(minX, minY, maxX, maxY) := trim_bounds data imgWidth imgHeight region in
  if (maxX <? minX) || (maxY <? minY) then None
  else Some {| rx := Z.max 0 (minX - padding);
               ry := Z.max 0 (minY - padding);
               rwidth := Z.min (imgWidth - minX + padding) (maxX - minX + 1 + padding * 2);
               rheight := Z.min (imgHeight - minY + padding) (maxY - minY + 1 + padding * 2) |}.

(** ** findSpriteRegions *)

(** Body of the double loop for the cell [(xi, yi)]. *)
Definition region_cell (data : ImageData) (width height : Z) (xB yB : list Z)
    (regions : list Region) (yi xi : nat) : list Region :=
  let region := {| rx := nth xi xB 0;
                   ry := nth yi yB 0;
                   rwidth := nth (S xi) xB 0 - nth xi xB 0;
                   rheight := nth (S yi) yB 0 - nth yi yB 0 |} in
  if regionHasContent data width region then
    match trimRegion data width height region with
    | Some trimmed =>
        if (10 <? rwidth trimmed) && (10 <? rheight trimmed)
        then regions ++ [trimmed] else regions
    | None => regions
    end
  else regions.

Definition findSpriteRegions (imageData : ImageData) (width height : Z) : list Region :=
  let data := imageData in
  let horizontalGaps := findGaps data width height Horizontal in
  let verticalGaps := findGaps data width height Vertical in
  if (Nat.eqb (length horizontalGaps) 0) && (Nat.eqb (length verticalGaps) 0) then []
  else
    let xBoundaries := 0 :: verticalGaps ++ [width] in
    let yBoundaries := 0 :: horizontalGaps ++ [height] in
    fold_left (fun regions yi =>
        fold_left (fun regions xi => region_cell data width height xBoundaries yBoundaries regions yi xi)
                  (seq 0 (length xBoundaries - 1)) regions)
      (seq 0 (length yBoundaries - 1)) [].

(** ** detectSpriteType *)

Definition detectSpriteType (img : ImageData) (analysis : Analysis) : Detection :=
  let width := width img in
  let height := height img in
  if (width <? 200) && (height <? 200) then DSingle
  else
    (* Case 3 (solid background) and Case 4 (ambiguous) both give single. *)
    let fallback :=
      if negb (hasTransparentEdges analysis) then DSingle else DSingle in
    if hasTransparency analysis && hasTransparentEdges analysis then
      let regions := findSpriteRegions (imageData analysis) width height in
      if (0 <? Z.of_nat (length regions)) && (Z.of_nat (length regions) <=? 20)
      then DRegions regions width height
      else match detectGrid width height with
           | Some gridInfo => DGrid (g_cols gridInfo) (g_rows gridInfo) (g_cellSize gridInfo)
           | None => fallback
           end
    else fallback.

(** ** hasContent *)

(** Loop state: (visiblePixels, coloredPixels) at the pixel starting at [i]. *)
Definition content_pixel (data : ImageData) (st : Z * Z) (i : Z) : Z * Z :=
  let '(visiblePixels, coloredPixels) := st in
  let r := data_at data i in
  let g := data_at data (i + 1) in
  let b := data_at data (i + 2) in
  let a := data_at data (i + 3) in
  if gt a 50 then
    (visiblePixels + 1,
     if negb ((gt r 240 && gt g 240 && gt b 240) || (lt r 15 && lt g 15 && lt b 15))
     then coloredPixels + 1 else coloredPixels)
  else st.

(** [for (let i = 0; i < data.length; i += 4)]: the offsets [4 k]. *)
Definition pixel_starts (imageData : ImageData) : list Z :=
  map (fun k => 4 * k) (zrange 0 ((data_length imageData + 3) / 4)).

Definition hasContent (self : SpriteExtractor) (imageData : ImageData) : bool :=
  let '(visiblePixels, coloredPixels) :=
    fold_left (content_pixel imageData) (pixel_starts imageData) (0, 0) in
  (minPixelThreshold self <? visiblePixels) && (50 <? coloredPixels).

(** ** extractFromImage *)

(** One sprite of the [regions] branch: a square canvas of side
    [max(width, height)] with the region drawn centred. *)
Definition region_canvas (img : ImageData) (region : Region) : ImageData :=
  let size := Z.max (rwidth region) (rheight region) in
  let offsetX := (size - rwidth region) / 2 in
  let offsetY := (size - rheight region) / 2 in
  drawImage (blank size size) img (rx region) (ry region) (rwidth region) (rheight region)
            offsetX offsetY.

Definition region_sprite (img : ImageData) (sprites : list Sprite) (region : Region) : Sprite :=
  {| sp_imageData := region_canvas img region;
     sp_index := Z.of_nat (length sprites);
     sp_kind := KRegion region |}.

(** The grid cell at [(row, col)]: the shared canvas is resized to
    [cellSize] (which clears it), cleared again, and the cell drawn at 0,0. *)
Definition grid_cell (img : ImageData) (cellSize row col : Z) : ImageData :=
  drawImage (blank cellSize cellSize) img (col * cellSize) (row * cellSize)
            cellSize cellSize 0 0.

(** The inner [col] loop, including its [break] on [maxSprites]. *)
Fixpoint grid_cols (self : SpriteExtractor) (img : ImageData) (cellSize row : Z)
    (cols : list Z) (sprites : list Sprite) : list Sprite :=
  match cols with
  | [] => sprites
  | col :: rest =>
      if maxSprites self <=? Z.of_nat (length sprites) then sprites
      else
        let imageData := grid_cell img cellSize row col in
        let sprites :=
          if hasContent self imageData
          then sprites ++ [{| sp_imageData := imageData;
                              sp_index := Z.of_nat (length sprites);
                              sp_kind := KGrid row col |}]
          else sprites in
        grid_cols self img cellSize row rest sprites
  end.

Definition extract_detected (self : SpriteExtractor) (img : ImageData) (detection : Detection)
    : list Sprite :=
  match detection with
  | DSingle =>
      [{| sp_imageData := canvas_of img; sp_index := 0; sp_kind := KSingle |}]
  | DRegions regions _ _ =>
      fold_left (fun sprites region => sprites ++ [region_sprite img sprites region]) regions []
  | DGrid cols rows cellSize =>
      fold_left (fun sprites row => grid_cols self img cellSize row (zrange 0 cols) sprites)
                (zrange 0 rows) []
  end.

Definition extractFromImage (self : SpriteExtractor) (img : ImageData) : list Sprite :=
  let analysis := analyzeImage img in
  let detection := detectSpriteType img analysis in
  extract_detected self img detection.

(** ** analyzeColors *)

Local Open Scope string_scope.

(** The keys of [colorCounts], in the order [Object.entries] lists them. *)
Definition colorKeys : list String.string :=
  ["red"; "orange"; "yellow"; "green"; "cyan"; "blue"; "purple"; "pink";
   "brown"; "white"; "gray"; "black"].

(** [colorCounts[key]++] on the entries of [colorCounts] (the keys used are
    always among [colorKeys]). *)
Fixpoint bump (key : String.string) (counts : list (String.string * Z))
    : list (String.string * Z) :=
  match counts with
  | [] => []
  | (k, c) :: rest => if String.eqb k key then (k, c + 1) :: rest else (k, c) :: bump key rest
  end.

(** [saturation < 0.15], compared exactly as rationals.  With
    [lightness = (max + min) / 2], [1 - |2 * lightness / 255 - 1|] is
    [(255 - |max + min - 255|) / 255], so [saturation] is
    [255 * (max - min) / (255 - |max + min - 255|)] when [max <> min]; a
    zero denominator gives [Infinity], a negative one a negative ratio. *)
Definition saturation_lt (max min : Z) : bool :=
  if max =? min then true
  else
    let den := 255 - Z.abs (max + min - 255) in
    if 0 <? den then 20 * 255 * (max - min) <? 3 * den
    else negb (den =? 0).

(** The bucket of a counted pixel; [lightness > 200], [> 100] and [< 100]
    are compared on [max + min = 2 * lightness]. *)
Definition color_of (r g b : Z) : String.string :=
  let max := Z.max r (Z.max g b) in
  let min := Z.min r (Z.min g b) in
  let l2 := max + min in
  if saturation_lt max min || (max - min <? 30) then
    if 400 <? l2 then "white" else if 200 <? l2 then "gray" else "black"
  else if (g <=? r) && (b <=? r) then
    if b + 50 <? g then (if (200 <? r) && (150 <? g) then "yellow" else "orange")
    else if g + 30 <? b then "pink"
    else if l2 <? 200 then "brown" else "red"
  else if (r <=? g) && (b <=? g) then
    if r + 30 <? b then "cyan" else "green"
  else if g + 30 <? r then "purple" else "blue".

(** Loop state: (totalPixels, colorCounts).  Every offset read lies inside
    the array (lemma [pixel_starts_in_range]), so [data[i + k]] is a byte. *)
Definition color_pixel (data : ImageData) (st : Z * list (String.string * Z)) (i : Z)
    : Z * list (String.string * Z) :=
  let '(totalPixels, colorCounts) := st in
  let r := bytes data i in
  let g := bytes data (i + 1) in
  let b := bytes data (i + 2) in
  let a := bytes data (i + 3) in
  if a <? 128 then st
  else if (240 <? r) && (240 <? g) && (240 <? b) then st
  else (totalPixels + 1, bump (color_of r g b) colorCounts).

Definition color_scan (imageData : ImageData) : Z * list (String.string * Z) :=
  fold_left (color_pixel imageData) (pixel_starts imageData) (0, map (fun k => (k, 0)) colorKeys).

(** [.sort((a, b) => b[1] - a[1])]: [Array.prototype.sort] is stable, so the
    entries end in decreasing count with ties in their original order, as
    this insertion sort leaves them. *)
Fixpoint insert_by_count (e : String.string * Z) (l : list (String.string * Z))
    : list (String.string * Z) :=
  match l with
  | [] => [e]
  | e' :: rest => if snd e' <? snd e then e :: l else e' :: insert_by_count e rest
  end.

Definition sort_by_count (l : list (String.string * Z)) : list (String.string * Z) :=
  fold_left (fun acc e => insert_by_count e acc) l [].

(** The result: the (at most 3) most frequent colours.  The percentages
    computed alongside are only logged and are left out. *)
Definition analyzeColors (imageData : ImageData) : list String.string :=
  let '(totalPixels, colorCounts) := color_scan imageData in
  map fst (firstn 3 (sort_by_count (filter (fun e => 0 <? snd e) colorCounts))).

(** ** colorToElement (src/unnamed/part_008) *)

Definition colorMap : list (String.string * String.string) :=
  [("red", "Fire"); ("orange", "Fire"); ("blue", "Water"); ("cyan", "Ice");
   ("green", "Nature"); ("brown", "Earth"); ("yellow", "Electric"); ("purple", "Psychic");
   ("pink", "Psychic"); ("white", "Light"); ("black", "Shadow"); ("gray", "Earth")].

(** [colorMap[color]] on the object's own keys (the keys inherited from
    [Object.prototype] are not modelled; [analyzeColors] never yields one). *)
Fixpoint lookup (m : list (String.string * String.string)) (k : String.string)
    : option String.string :=
  match m with
  | [] => None
  | (k', v) :: rest => if String.eqb k' k then Some v else lookup rest k
  end.

(** [for (const color of colors)]: the first colour with an element. *)
Fixpoint colorToElement_loop (colors : list String.string) : String.string :=
  match colors with
  | [] => "Psychic"
  | color :: rest =>
      match lookup colorMap color with
      | Some element => element
      | None => colorToElement_loop rest
      end
  end.

Definition colorToElement (colors : list String.string) : String.string :=
  match colors with
  | [] => "Psychic"
  | _ => colorToElement_loop colors
  end.

Local Close Scope string_scope.

(** ** Concrete images *)

(** An image of [w] by [h] pixels whose pixel [(x, y)] has colour [f x y]. *)
Definition image_of (w h : Z) (f : Z -> Z -> Z * Z * Z * Z) : ImageData :=
  mkImageData w h (fun idx =>
    let p := idx / 4 in
    let '(r, g, b, a) := f (p mod w) (p / w) in
    match idx mod 4 with 0 => r | 1 => g | 2 => b | _ => a end).

Definition transparent : Z * Z * Z * Z := (0, 0, 0, 0).
Definition red : Z * Z * Z * Z := (255, 0, 0, 255).

(** A red [w'] by [h'] block at [(x0, y0)] on a transparent background. *)
Definition block (x0 y0 w' h' : Z) (x y : Z) : Z * Z * Z * Z :=
  if (x0 <=? x) && (x <? x0 + w') && (y0 <=? y) && (y <? y0 + h') then red else transparent.

(** 1 by 1, fully transparent. *)
Definition tiny : ImageData := blank 1 1.
(** 1024 by 1024, fully transparent. *)
Definition sheet_1024 : ImageData := blank 1024 1024.
(** 256 by 32, one opaque 32 by 32 block in the first 32px cell. *)
Definition grid_sheet : ImageData := image_of 256 32 (block 0 0 32 32).
(** 200 by 20, two 12 by 12 blocks separated by an 18px transparent gap. *)
Definition two_sprites : ImageData :=
  image_of 200 20 (fun x y => if x <? 30 then block 10 4 12 12 x y else block 40 4 12 12 x y).
(** 30 by 30, two opaque 10px bars touching the left and right borders. *)
Definition bars : ImageData :=
  image_of 30 30 (fun x y => if (x <? 10) || (20 <=? x) then red else transparent).
(** 1 by 9: an opaque first row, then 8 transparent rows. *)
Definition bottom_gap : ImageData :=
  image_of 1 9 (fun x y => if y =? 0 then red else transparent).

(** 1 by 9: 8 transparent rows, then an opaque last row. *)
Definition top_gap : ImageData :=
  image_of 1 9 (fun x y => if y =? 8 then red else transparent).
(** 200 by 20, two 12px wide blocks spanning the full height, separated by
    an 18px transparent gap. *)
Definition tall_sprites : ImageData :=
  image_of 200 20 (fun x y => if x <? 30 then block 10 0 12 20 x y else block 40 0 12 20 x y).

(** 208 by 16, one opaque 16 by 16 block in the first 16px cell. *)
Definition grid16_sheet : ImageData := image_of 208 16 (block 0 0 16 16).

(** ** Spec-side definitions, compared against the code above *)

(** §4.2 and §9 describe the classifier as an ordered list of rules where
    the first rule that fires wins, and [Single] is the default. *)
Fixpoint first_rule (rules : list (option Detection)) (default : Detection) : Detection :=
  match rules with
  | [] => default
  | Some d :: _ => d
  | None :: rest => first_rule rest default
  end.

Definition classifier_chain (img : ImageData) (analysis : Analysis) : Detection :=
  let w := width img in
  let h := height img in
  let transparentSheet := hasTransparency analysis && hasTransparentEdges analysis in
  let regions := findSpriteRegions (imageData analysis) w h in
  let n := Z.of_nat (length regions) in
  first_rule
    [ if (w <? 200) && (h <? 200) then Some DSingle else None;
      if transparentSheet && (1 <=? n) && (n <=? 20) then Some (DRegions regions w h) else None;
      if transparentSheet
      then option_map (fun g => DGrid (g_cols g) (g_rows g) (g_cellSize g)) (detectGrid w h)
      else None ]
    DSingle.

(** The acceptance test of a grid candidate of cell size [size]. *)
Definition grid_accepts (width height size : Z) : bool :=
  let cols := width / size in
  let rows := height / size in
  (2 <=? cols) && (1 <=? rows) && (2 <=? cols * rows) && (cols * rows <=? 64).

Definition divides_both (width height size : Z) : bool :=
  (width mod size =? 0) && (height mod size =? 0).

(** The grid detector as one reading of §4.4 words it: only the first size
    dividing both dimensions is tried. *)
Definition detectGrid_first_divisible (width height : Z) : option GridInfo :=
  match filter (divides_both width height) possibleSizes with
  | size :: _ =>
      if grid_accepts width height size
      then Some (mkGridInfo (width / size) (height / size) size) else None
  | [] => None
  end.

(** The first size, largest first, that divides both dimensions and whose
    grid is accepted. *)
Definition detectGrid_first_accepted (width height : Z) : option GridInfo :=
  match filter (fun size => divides_both width height size && grid_accepts width height size)
               possibleSizes with
  | size :: _ => Some (mkGridInfo (width / size) (height / size) size)
  | [] => None
  end.

(** Cells of a [rows] by [cols] grid in row-major order. *)
Definition row_major (rows cols : Z) : list (Z * Z) :=
  flat_map (fun row => map (fun col => (row, col)) (zrange 0 cols)) (zrange 0 rows).

(** Grid sprites for the cells [cells], numbered from [k]. *)
Fixpoint numbered (img : ImageData) (cellSize : Z) (k : nat) (cells : list (Z * Z))
    : list Sprite :=
  match cells with
  | [] => []
  | (row, col) :: rest =>
      {| sp_imageData := grid_cell img cellSize row col;
         sp_index := Z.of_nat k;
         sp_kind := KGrid row col |} :: numbered img cellSize (S k) rest
  end.

(** The Content Test on the grid cell [(row, col)]. *)
Definition cell_passes (self : SpriteExtractor) (img : ImageData) (cellSize : Z)
    (cell : Z * Z) : bool :=
  hasContent self (grid_cell img cellSize (fst cell) (snd cell)).

(** §4.5: the cells passing the Content Test, row-major, at most
    [maxSprites] of them, indexed 0, 1, 2, ... *)
Definition grid_extraction_spec (self : SpriteExtractor) (img : ImageData)
    (cols rows cellSize : Z) : list Sprite :=
  numbered img cellSize 0
    (firstn (Z.to_nat (maxSprites self))
       (filter (cell_passes self img cellSize) (row_major rows cols))).

(** ** Notions used by the properties of the code *)

(** [data[(y * imgWidth + x) * 4 + 3] > 50]: the visibility test shared by
    [findGaps], [regionHasContent] and [trimRegion]. *)
Definition visible (data : ImageData) (imgWidth x y : Z) : bool :=
  gt (data_at data ((y * imgWidth + x) * 4 + 3)) 50.

(** The pixels [(x, y)] visited by [regionHasContent], row-major. *)
Definition region_pixels (region : Region) : list (Z * Z) :=
  flat_map (fun y => map (fun x => (x, y)) (zrange (rx region) (rx region + rwidth region)))
           (zrange (ry region) (ry region + rheight region)).

(** Every pixel of the image has alpha >= 128 ([analyzeImage] counts no
    transparent pixel). *)
Definition all_opaque (img : ImageData) : bool :=
  forallb (fun y => forallb (fun x => negb (lt (data_at img ((y * width img + x) * 4 + 3)) 128))
                            (zrange 0 (width img)))
          (zrange 0 (height img)).

(** [colorCounts[color]] at the end of the scan (0 for a non-key). *)
Definition count_of (counts : list (String.string * Z)) (color : String.string) : Z :=
  match find (fun e => String.eqb (fst e) color) counts with
  | Some e => snd e
  | None => 0
  end.

(** Sum of the counts of [colorCounts]. *)
Definition counts_total (l : list (String.string * Z)) : Z :=
  fold_right (fun e acc => snd e + acc) 0 l.

(** The pixel at offset [i] is counted by [analyzeColors]. *)
Definition counted (d : ImageData) (i : Z) : bool :=
  negb (bytes d (i + 3) <? 128) &&
  negb ((240 <? bytes d i) && (240 <? bytes d (i + 1)) && (240 <? bytes d (i + 2))).

(** Order of [sort_by_count]: non-increasing count. *)
Definition by_count (a b : String.string * Z) : Prop := snd b <= snd a.

(** The box [(minX, minY, maxX, maxY)] of [trimRegion] contains [(x, y)]. *)
Definition box_has (x y : Z) (st : Z * Z * Z * Z) : Prop :=
  let '(minX, minY, maxX, maxY) := st in minX <= x <= maxX /\ minY <= y <= maxY.

(** * Proofs *)

(** ** Loops *)

Lemma zrange_from_In lo n x : In x (zrange_from lo n) <-> lo <= x < lo + Z.of_nat n.
Proof.
  revert lo; induction n as [|n IH]; intros lo; simpl.
  - lia.
  - rewrite IH. lia.
Qed.

Lemma zrange_In lo hi x : In x (zrange lo hi) <-> lo <= x < hi.
Proof. unfold zrange. rewrite zrange_from_In. lia. Qed.

Lemma zrange_from_length lo n : length (zrange_from lo n) = n.
Proof. revert lo; induction n; simpl; auto. Qed.

Lemma zrange_length lo hi : length (zrange lo hi) = Z.to_nat (hi - lo).
Proof. apply zrange_from_length. Qed.

Lemma zrange_cons lo hi : lo < hi -> zrange lo hi = lo :: zrange (lo + 1) hi.
Proof.
  intros H. unfold zrange.
  replace (Z.to_nat (hi - lo)) with (S (Z.to_nat (hi - (lo + 1)))) by lia.
  reflexivity.
Qed.

Section Folds.
Context {A B : Type}.

Lemma fold_left_inv (I : A -> Prop) (f : A -> B -> A) l a :
  (forall a b, In b l -> I a -> I (f a b)) -> I a -> I (fold_left f l a).
Proof.
  revert a; induction l as [|b l IH]; intros a Hstep Ha; simpl; auto.
  apply IH; [intros; apply Hstep; simpl; auto | apply Hstep; simpl; auto].
Qed.

Lemma fold_left_measure (m : A -> Z) (k : Z) (f : A -> B -> A) l a :
  (forall a b, In b l -> m (f a b) = m a + k) ->
  m (fold_left f l a) = m a + k * Z.of_nat (length l).
Proof.
  revert a; induction l as [|b l IH]; intros a Hstep; simpl.
  - lia.
  - rewrite IH by (intros; apply Hstep; simpl; auto).
    rewrite Hstep by (simpl; auto). lia.
Qed.

Lemma fold_left_mono (m : A -> Z) (f : A -> B -> A) l a :
  (forall a b, In b l -> m a <= m (f a b)) -> m a <= m (fold_left f l a).
Proof.
  revert a; induction l as [|b l IH]; intros a Hstep; simpl.
  - lia.
  - assert (Hb := Hstep a b (or_introl eq_refl)).
    assert (IH' := IH (f a b) (fun a' b' H => Hstep a' b' (or_intror H))).
    lia.
Qed.
End Folds.

(** ** Fully transparent images *)

Lemma canvas_of_blank_bytes w h idx : bytes (canvas_of (blank w h)) idx = 0.
Proof. unfold canvas_of, drawImage, blank; simpl. destruct (_ && _); reflexivity. Qed.

Lemma imageData_analyzeImage img : imageData (analyzeImage img) = canvas_of img.
Proof.
  unfold analyzeImage. destruct (fold_left _ _ _) as [[[tp op] et] te]. reflexivity.
Qed.

Lemma gt_canvas_blank w h idx : gt (data_at (canvas_of (blank w h)) idx) 50 = false.
Proof.
  unfold data_at. rewrite canvas_of_blank_bytes. destruct (_ && _); reflexivity.
Qed.

Lemma gap_scan_all_empty (f : Z -> bool) l g :
  (forall i, f i = true) -> snd (fold_left (fun st i => gap_step st i (f i)) l (g, [])) = [].
Proof.
  intros Hf.
  apply (fold_left_inv (fun st => snd st = [])); [|reflexivity].
  intros [gs gaps] i _ Hg; simpl in Hg; subst gaps.
  rewrite Hf; simpl. reflexivity.
Qed.

Lemma existsb_all_false {T} (f : T -> bool) l : (forall x, f x = false) -> existsb f l = false.
Proof. intros Hf; induction l as [|x l IH]; simpl; [|rewrite Hf, IH]; reflexivity. Qed.

Lemma findGaps_blank w h d : findGaps (canvas_of (blank w h)) w h d = [].
Proof.
  destruct d; simpl; apply gap_scan_all_empty; intros i.
  - unfold rowEmpty. rewrite existsb_all_false; [reflexivity|]. intros; apply gt_canvas_blank.
  - unfold colEmpty. rewrite existsb_all_false; [reflexivity|]. intros; apply gt_canvas_blank.
Qed.

Lemma findSpriteRegions_blank w h : findSpriteRegions (canvas_of (blank w h)) w h = [].
Proof. unfold findSpriteRegions. rewrite !findGaps_blank. reflexivity. Qed.

Definition st_tp (s : Z * Z * Z * Z) : Z := let '(tp, _, _, _) := s in tp.
Definition st_et (s : Z * Z * Z * Z) : Z := let '(_, _, et, _) := s in et.
Definition st_te (s : Z * Z * Z * Z) : Z := let '(_, _, _, te) := s in te.

Lemma data_at_canvas_blank w h x y :
  0 <= x < w -> 0 <= y < h ->
  data_at (canvas_of (blank w h)) ((y * w + x) * 4 + 3) = Some 0.
Proof.
  intros Hx Hy. unfold data_at. rewrite canvas_of_blank_bytes.
  unfold data_length; cbn [canvas_of drawImage blank width height].
  replace ((0 <=? (y * w + x) * 4 + 3) && ((y * w + x) * 4 + 3 <? w * h * 4)) with true
    by (symmetry; apply andb_true_iff; split; [apply Z.leb_le | apply Z.ltb_lt]; nia).
  reflexivity.
Qed.

(** One pixel of a transparent image: counted transparent, and as a
    transparent edge pixel when it is on the border band. *)
Lemma analyze_pixel_blank w h st x y :
  0 <= x < w -> 0 <= y < h ->
  let isEdge := (x <? 5) || (w - 5 <=? x) || (y <? 5) || (h - 5 <=? y) in
  st_tp (analyze_pixel (canvas_of (blank w h)) w h st y x) = st_tp st + 1 /\
  st_et (analyze_pixel (canvas_of (blank w h)) w h st y x)
    = st_et st + (if isEdge then 1 else 0) /\
  st_te (analyze_pixel (canvas_of (blank w h)) w h st y x)
    = st_te st + (if isEdge then 1 else 0).
Proof.
  intros Hx Hy isEdge. destruct st as [[[tp op] et] te].
  unfold analyze_pixel. rewrite data_at_canvas_blank by assumption. simpl.
  fold isEdge. destruct isEdge; simpl; lia.
Qed.

Lemma analyzeImage_blank w h :
  1 <= w -> 1 <= h ->
  hasTransparency (analyzeImage (blank w h)) = true /\
  hasTransparentEdges (analyzeImage (blank w h)) = true.
Proof.
  intros Hw Hh.
  set (row := fun st y =>
         fold_left (fun st x => analyze_pixel (canvas_of (blank w h)) w h st y x) (zrange 0 w) st).
  assert (Hrow_tp : forall st y, In y (zrange 0 h) -> st_tp (row st y) = st_tp st + w).
  { intros st y Hy. apply zrange_In in Hy. unfold row.
    rewrite (fold_left_measure st_tp 1); [rewrite zrange_length; lia|].
    intros a x Hx. apply zrange_In in Hx. apply analyze_pixel_blank; lia. }
  assert (Hrow_eq : forall st y, In y (zrange 0 h) -> st_et st = st_te st ->
                                 st_et (row st y) = st_te (row st y)).
  { intros st y Hy Heq. apply zrange_In in Hy. unfold row.
    apply (fold_left_inv (fun s => st_et s = st_te s)); [|assumption].
    intros a x Hx Ha. apply zrange_In in Hx.
    destruct (analyze_pixel_blank w h a x y) as (_ & H1 & H2); [lia | lia |].
    cbv zeta in H1, H2. lia. }
  assert (Hrow_mono : forall st y, In y (zrange 0 h) -> st_te st <= st_te (row st y)).
  { intros st y Hy. apply zrange_In in Hy. unfold row.
    apply fold_left_mono. intros a x Hx. apply zrange_In in Hx.
    destruct (analyze_pixel_blank w h a x y) as (_ & _ & H2); [lia | lia |].
    cbv zeta in H2. rewrite H2. destruct (_ || _); lia. }
  assert (Hrow0 : forall st, st_te (row st 0) = st_te st + w).
  { intros st. unfold row.
    rewrite (fold_left_measure st_te 1); [rewrite zrange_length; lia|].
    intros a x Hx. apply zrange_In in Hx.
    destruct (analyze_pixel_blank w h a x 0) as (_ & _ & H2); [lia | lia |].
    cbv zeta in H2. rewrite H2. simpl (0 <? 5). rewrite orb_true_r. reflexivity. }
  unfold analyzeImage.
  change (width (blank w h)) with w. change (height (blank w h)) with h.
  change (fold_left _ (zrange 0 h) (0, 0, 0, 0)) with (fold_left row (zrange 0 h) (0, 0, 0, 0)).
  remember (fold_left row (zrange 0 h) (0, 0, 0, 0)) as fin eqn:Efin.
  assert (Htp : st_tp fin = w * h).
  { subst fin. rewrite (fold_left_measure st_tp w); [rewrite zrange_length; simpl; lia|].
    exact Hrow_tp. }
  assert (Heq : st_et fin = st_te fin).
  { subst fin. apply (fold_left_inv (fun s => st_et s = st_te s)); [|reflexivity].
    exact Hrow_eq. }
  assert (Hte : 1 <= st_te fin).
  { subst fin. rewrite zrange_cons by lia. simpl fold_left.
    assert (H0 := Hrow0 (0, 0, 0, 0)). simpl in H0.
    assert (Hm : st_te (row (0, 0, 0, 0) 0) <=
                 st_te (fold_left row (zrange 1 h) (row (0, 0, 0, 0) 0))).
    { apply fold_left_mono. intros a y Hy. apply Hrow_mono.
      apply zrange_In in Hy. apply zrange_In. lia. }
    lia. }
  destruct fin as [[[tp op] et] te]. simpl in Htp, Heq, Hte.
  cbn [hasTransparency hasTransparentEdges].
  split.
  - apply Z.ltb_lt. nia.
  - replace (0 <? te) with true by (symmetry; apply Z.ltb_lt; lia).
    apply Z.ltb_lt. lia.
Qed.

Lemma ltb0_leb1 k : (0 <? k) = (1 <=? k).
Proof. destruct (Z.ltb_spec 0 k), (Z.leb_spec 1 k); lia. Qed.

(** ** C1 *)

(** C1 (corrected).  For every 1024x1024 image the Grid Detector accepts
    8x8 cells of 128px (64 cells, inside the ceiling); so the classifier
    yields [Grid(8, 8, 128)] whenever the image has transparency and
    transparent edges and the Region Finder returns 0 or more than 20
    regions, [Regions] when it returns 1 to 20, and [Single] otherwise. *)
Theorem detectSpriteType_1024 (img : ImageData) :
  width img = 1024 -> height img = 1024 ->
  detectSpriteType img (analyzeImage img) =
    let a := analyzeImage img in
    let regions := findSpriteRegions (imageData a) 1024 1024 in
    if hasTransparency a && hasTransparentEdges a then
      if (1 <=? Z.of_nat (length regions)) && (Z.of_nat (length regions) <=? 20)
      then DRegions regions 1024 1024
      else DGrid 8 8 128
    else DSingle.
Proof.
  intros Hw Hh. unfold detectSpriteType. rewrite Hw, Hh.
  change (detectGrid 1024 1024) with (Some (mkGridInfo 8 8 128)).
  cbv zeta. simpl (_ <? 200).
  destruct (hasTransparency _ && hasTransparentEdges _) eqn:E;
    [|destruct (negb _); reflexivity].
  rewrite ltb0_leb1. reflexivity.
Qed.

Lemma detectSpriteType_1024_witness :
  width sheet_1024 = 1024 /\ height sheet_1024 = 1024 /\
  detectSpriteType sheet_1024 (analyzeImage sheet_1024) =
    let a := analyzeImage sheet_1024 in
    let regions := findSpriteRegions (imageData a) 1024 1024 in
    if hasTransparency a && hasTransparentEdges a then
      if (1 <=? Z.of_nat (length regions)) && (Z.of_nat (length regions) <=? 20)
      then DRegions regions 1024 1024
      else DGrid 8 8 128
    else DSingle.
Proof.
  split; [reflexivity|]. split; [reflexivity|].
  apply detectSpriteType_1024; reflexivity.
Defined.

(** C1 counterexample: [detectGrid(1024, 1024)] accepts 8x8 cells of
    128px, and the fully transparent 1024x1024 image is classified as
    [Grid(8, 8, 128)]. *)
Lemma sheet_1024_classified_as_grid :
  detectGrid 1024 1024 = Some (mkGridInfo 8 8 128) /\
  detectSpriteType sheet_1024 (analyzeImage sheet_1024) = DGrid 8 8 128.
Proof.
  split; [reflexivity|].
  unfold sheet_1024.
  destruct (analyzeImage_blank 1024 1024) as [H1 H2]; [lia | lia |].
  unfold detectSpriteType.
  change (width (blank 1024 1024)) with 1024. change (height (blank 1024 1024)) with 1024.
  rewrite H1, H2, imageData_analyzeImage, findSpriteRegions_blank.
  reflexivity.
Qed.

(** ** C6 *)

(** C6 (confirmed).  The classifier is the first-match priority chain:
    [Single] when width and height are both below 200; else, under
    transparency and transparent edges, [Regions] when the Region Finder
    returns 1 to 20 regions, else [Grid] when the Grid Detector returns a
    grid; [Single] in every other case. *)
Theorem detectSpriteType_priority_chain (img : ImageData) (analysis : Analysis) :
  detectSpriteType img analysis = classifier_chain img analysis.
Proof.
  unfold detectSpriteType, classifier_chain. cbv zeta.
  destruct ((width img <? 200) && (height img <? 200)); [reflexivity|].
  cbn [first_rule].
  destruct (hasTransparency analysis && hasTransparentEdges analysis); cbn [andb first_rule].
  - rewrite ltb0_leb1.
    destruct ((1 <=? _) && (_ <=? 20)); [reflexivity|]. cbn [first_rule].
    destruct (detectGrid (width img) (height img)); simpl; [reflexivity|].
    destruct (negb _); reflexivity.
  - destruct (negb _); reflexivity.
Qed.

(** ** C7 *)

(** C7 counterexample: at 128x128 the first size dividing both dimensions
    (128) gives a single column and is rejected, yet [detectGrid] goes on
    and returns the 2x2 grid of 64px cells. *)
Lemma detectGrid_128_128 :
  detectGrid 128 128 = Some (mkGridInfo 2 2 64) /\
  detectGrid_first_divisible 128 128 = None.
Proof. split; reflexivity. Qed.

(** C7 (corrected).  [detectGrid] tries every size of
    [128, 96, 64, 48, 32, 16] in turn and returns the first size that
    divides both dimensions AND whose grid is accepted
    ([cols >= 2], [rows >= 1], [2 <= cols*rows <= 64]), as
    [(width/size, height/size, size)]; a dividing size that is rejected does
    not stop the search; [null] when no size qualifies. *)
Theorem detectGrid_first_accepted_spec (w h : Z) :
  detectGrid w h = detectGrid_first_accepted w h.
Proof.
  unfold detectGrid, detectGrid_first_accepted. generalize possibleSizes as l.
  induction l as [|size l IH]; simpl; [reflexivity|].
  unfold divides_both, grid_accepts.
  destruct ((w mod size =? 0) && (h mod size =? 0)); simpl; [|exact IH].
  destruct (_ && _ && _ && _); [reflexivity | exact IH].
Qed.

(** ** Grid extraction *)

Lemma numbered_app img cs k A B :
  numbered img cs k (A ++ B) = numbered img cs k A ++ numbered img cs (k + length A) B.
Proof.
  revert k; induction A as [|[row col] A IH]; intros k; simpl.
  - rewrite Nat.add_0_r. reflexivity.
  - rewrite IH. rewrite Nat.add_succ_r. reflexivity.
Qed.

Lemma length_numbered img cs k l : length (numbered img cs k l) = length l.
Proof. revert k; induction l as [|[row col] l IH]; intros k; simpl; auto. Qed.

(** The inner loop appends the next passing cells of the row, as many as
    the cap still allows. *)
Lemma grid_cols_spec self img cs row cols sprites :
  grid_cols self img cs row cols sprites =
  sprites ++ numbered img cs (length sprites)
    (firstn (Z.to_nat (maxSprites self) - length sprites)
       (filter (cell_passes self img cs) (map (fun col => (row, col)) cols))).
Proof.
  revert sprites; induction cols as [|col cols IH]; intros sprites; simpl.
  - rewrite firstn_nil. simpl. rewrite app_nil_r. reflexivity.
  - destruct (Z.leb_spec (maxSprites self) (Z.of_nat (length sprites))) as [Hcap|Hcap].
    + replace (Z.to_nat (maxSprites self) - length sprites)%nat with 0%nat by lia.
      simpl. rewrite app_nil_r. reflexivity.
    + unfold cell_passes at 1. simpl fst. simpl snd.
      replace (Z.to_nat (maxSprites self) - length sprites)%nat
        with (S (Z.to_nat (maxSprites self) - S (length sprites))) by lia.
      destruct (hasContent self (grid_cell img cs row col)).
      * rewrite IH. rewrite length_app. simpl length. rewrite Nat.add_1_r.
        rewrite firstn_cons. simpl numbered. rewrite <- app_assoc. reflexivity.
      * rewrite IH.
        replace (S (Z.to_nat (maxSprites self) - S (length sprites)))
          with (Z.to_nat (maxSprites self) - length sprites)%nat by lia.
        reflexivity.
Qed.

Lemma grid_rows_spec self img cs cols rows sprites :
  fold_left (fun sprites row => grid_cols self img cs row (zrange 0 cols) sprites) rows sprites =
  sprites ++ numbered img cs (length sprites)
    (firstn (Z.to_nat (maxSprites self) - length sprites)
       (filter (cell_passes self img cs)
          (flat_map (fun row => map (fun col => (row, col)) (zrange 0 cols)) rows))).
Proof.
  revert sprites; induction rows as [|row rows IH]; intros sprites; simpl.
  - rewrite firstn_nil. simpl. rewrite app_nil_r. reflexivity.
  - rewrite IH, grid_cols_spec. rewrite filter_app, firstn_app, numbered_app.
    rewrite <- app_assoc. f_equal. f_equal.
    rewrite length_app, length_numbered, length_firstn.
    f_equal. f_equal. lia.
Qed.

(** C8 (confirmed).  Under a Grid detection result, extraction visits the
    cells row-major, keeps exactly the cells that pass the Content Test, up
    to [maxSprites] of them, and numbers the kept tiles 0, 1, 2, ... *)
Theorem extractFromImage_grid (self : SpriteExtractor) (img : ImageData) (cols rows cs : Z) :
  detectSpriteType img (analyzeImage img) = DGrid cols rows cs ->
  extractFromImage self img = grid_extraction_spec self img cols rows cs.
Proof.
  intros Hd. unfold extractFromImage. rewrite Hd. unfold extract_detected.
  rewrite grid_rows_spec. simpl. rewrite Nat.sub_0_r. reflexivity.
Qed.

Lemma extractFromImage_grid_witness :
  detectSpriteType grid_sheet (analyzeImage grid_sheet) = DGrid 8 1 32 /\
  extractFromImage default_extractor grid_sheet =
    grid_extraction_spec default_extractor grid_sheet 8 1 32.
Proof.
  assert (Hd : detectSpriteType grid_sheet (analyzeImage grid_sheet) = DGrid 8 1 32)
    by (vm_compute; reflexivity).
  split; [exact Hd | apply (extractFromImage_grid default_extractor grid_sheet 8 1 32 Hd)].
Defined.

(** ** Shape of every emitted sprite *)

Lemma In_numbered img cs k l s :
  In s (numbered img cs k l) ->
  exists row col, In (row, col) l /\ sp_kind s = KGrid row col /\
                  sp_imageData s = grid_cell img cs row col.
Proof.
  revert k; induction l as [|[row col] l IH]; intros k Hs; simpl in Hs; [contradiction|].
  destruct Hs as [Hs|Hs].
  - subst s. exists row, col. simpl. auto.
  - destruct (IH (S k) Hs) as (r & c & Hin & Hk & Hi). exists r, c. simpl. auto.
Qed.

Lemma In_firstn_In {T} n (l : list T) x : In x (firstn n l) -> In x l.
Proof. intros H. rewrite <- (firstn_skipn n l). apply in_or_app. left. exact H. Qed.

Lemma extract_detected_inv self img d s :
  In s (extract_detected self img d) ->
  match d with
  | DSingle => s = {| sp_imageData := canvas_of img; sp_index := 0; sp_kind := KSingle |}
  | DRegions regions _ _ =>
      exists r, In r regions /\ sp_kind s = KRegion r /\ sp_imageData s = region_canvas img r
  | DGrid cols rows cs =>
      exists row col, sp_kind s = KGrid row col /\
                      sp_imageData s = grid_cell img cs row col /\
                      hasContent self (sp_imageData s) = true
  end.
Proof.
  destruct d as [|regions w h|cols rows cs]; simpl.
  - intros [Hs|[]]. auto.
  - revert s.
    apply (fold_left_inv (fun acc => forall s, In s acc -> exists r, In r regions /\
             sp_kind s = KRegion r /\ sp_imageData s = region_canvas img r)).
    + intros acc r Hr Hacc s Hs. apply in_app_or in Hs. destruct Hs as [Hs|[Hs|[]]].
      * apply Hacc, Hs.
      * subst s. exists r. simpl. auto.
    + intros s [].
  - rewrite grid_rows_spec. simpl. intros Hs.
    destruct (In_numbered _ _ _ _ _ Hs) as (row & col & Hin & Hk & Hi).
    apply In_firstn_In, filter_In in Hin. destruct Hin as [_ Hpass].
    exists row, col. unfold cell_passes in Hpass. simpl in Hpass.
    rewrite Hi. auto.
Qed.

Lemma detectSpriteType_regions img a regions w h :
  detectSpriteType img a = DRegions regions w h ->
  regions = findSpriteRegions (imageData a) (width img) (height img).
Proof.
  unfold detectSpriteType. cbv zeta.
  destruct (_ && _); [discriminate|].
  destruct (hasTransparency a && hasTransparentEdges a).
  - destruct (_ && _).
    + intros H; injection H; auto.
    + destruct (detectGrid _ _); [discriminate|]. destruct (negb _); discriminate.
  - destruct (negb _); discriminate.
Qed.

Lemma detectSpriteType_grid img a cols rows cs :
  detectSpriteType img a = DGrid cols rows cs ->
  detectGrid (width img) (height img) = Some (mkGridInfo cols rows cs).
Proof.
  unfold detectSpriteType. cbv zeta.
  destruct (_ && _); [discriminate|].
  destruct (hasTransparency a && hasTransparentEdges a).
  - destruct (_ && _); [discriminate|].
    destruct (detectGrid _ _) as [[c r s]|]; [|destruct (negb _); discriminate].
    simpl. intros H; injection H; intros; subst; reflexivity.
  - destruct (negb _); discriminate.
Qed.

Lemma detectGrid_cellSize w h g :
  detectGrid w h = Some g -> In (g_cellSize g) possibleSizes.
Proof.
  unfold detectGrid. generalize possibleSizes as l.
  induction l as [|size l IH]; simpl; [discriminate|].
  destruct (_ && _).
  - destruct (_ && _ && _ && _).
    + intros H; injection H; intros; subst; simpl; auto.
    + intros H; right; apply IH, H.
  - intros H; right; apply IH, H.
Qed.

(** Every region kept by [findSpriteRegions] is wider and taller than 10. *)
Lemma findSpriteRegions_size data w h r :
  In r (findSpriteRegions data w h) -> 10 < rwidth r /\ 10 < rheight r.
Proof.
  unfold findSpriteRegions.
  destruct (_ && _); [intros []|].
  revert r.
  apply (fold_left_inv (fun acc => forall r, In r acc -> 10 < rwidth r /\ 10 < rheight r));
    [|intros r []].
  intros acc yi _ Hacc.
  apply (fold_left_inv (fun acc => forall r, In r acc -> 10 < rwidth r /\ 10 < rheight r));
    [|exact Hacc].
  intros acc' xi _ Hacc' r Hr. unfold region_cell in Hr.
  destruct (regionHasContent _ _ _); [|apply Hacc', Hr].
  destruct (trimRegion _ _ _ _) as [t|]; [|apply Hacc', Hr].
  destruct (10 <? rwidth t) eqn:E1, (10 <? rheight t) eqn:E2; simpl in Hr;
    try (apply Hacc', Hr).
  apply in_app_or in Hr. destruct Hr as [Hr|[Hr|[]]]; [apply Hacc', Hr|].
  subst r. apply Z.ltb_lt in E1, E2. auto.
Qed.

(** ** C2 *)

(** C2 counterexample: the 1x1 image is classified [Single] and emitted
    whole, as a 1x1 tile. *)
Lemma tiny_single_tile :
  extractFromImage default_extractor tiny =
    [{| sp_imageData := canvas_of tiny; sp_index := 0; sp_kind := KSingle |}] /\
  width (canvas_of tiny) = 1 /\ height (canvas_of tiny) = 1.
Proof. split; [reflexivity | split; reflexivity]. Qed.

(** C2 (corrected).  Every tile of the Regions or Grid branch is wider and
    taller than 10 pixels; the tile of the Single branch is the whole
    image, with the image's own width and height. *)
Theorem extractFromImage_tile_size (self : SpriteExtractor) (img : ImageData) (s : Sprite) :
  In s (extractFromImage self img) ->
  match sp_kind s with
  | KSingle => width (sp_imageData s) = width img /\ height (sp_imageData s) = height img
  | _ => 10 < width (sp_imageData s) /\ 10 < height (sp_imageData s)
  end.
Proof.
  unfold extractFromImage. intros Hs.
  destruct (detectSpriteType img (analyzeImage img)) as [|regions w h|cols rows cs] eqn:Hd;
    apply extract_detected_inv in Hs.
  - subst s. simpl. auto.
  - destruct Hs as (r & Hr & Hk & Hi). rewrite Hk, Hi.
    apply detectSpriteType_regions in Hd. subst regions.
    apply findSpriteRegions_size in Hr. simpl. lia.
  - destruct Hs as (row & col & Hk & Hi & _). rewrite Hk, Hi.
    apply detectSpriteType_grid, detectGrid_cellSize in Hd. simpl in Hd |- *.
    intuition lia.
Qed.

Lemma extractFromImage_tile_size_witness :
  In {| sp_imageData := canvas_of tiny; sp_index := 0; sp_kind := KSingle |}
     (extractFromImage default_extractor tiny) /\
  width (canvas_of tiny) = width tiny /\ height (canvas_of tiny) = height tiny.
Proof.
  assert (H : In {| sp_imageData := canvas_of tiny; sp_index := 0; sp_kind := KSingle |}
                 (extractFromImage default_extractor tiny))
    by (left; reflexivity).
  split; [exact H|].
  exact (extractFromImage_tile_size default_extractor tiny _ H).
Defined.

(** ** C3 *)

(** C3 counterexample: the single tile of the 1x1 image and both region
    tiles of [two_sprites] (12x12 blocks, 144 visible pixels each) fail the
    Content Test with the default threshold of 500. *)
Lemma tiles_failing_content_test :
  map (fun s => hasContent default_extractor (sp_imageData s))
      (extractFromImage default_extractor tiny) = [false] /\
  map (fun s => (sp_kind s, hasContent default_extractor (sp_imageData s)))
      (extractFromImage default_extractor two_sprites) =
    [(KRegion (mkRegion 8 2 16 16), false); (KRegion (mkRegion 38 2 16 16), false)].
Proof. split; vm_compute; reflexivity. Qed.

(** C3 (corrected).  Every tile of the Grid branch passes the Content Test
    ([visiblePixels > minPixelThreshold], [coloredPixels > 50]) on its own
    pixel data; tiles of the Single and Regions branches are not filtered
    by it. *)
Theorem extractFromImage_grid_content (self : SpriteExtractor) (img : ImageData)
    (s : Sprite) (row col : Z) :
  In s (extractFromImage self img) -> sp_kind s = KGrid row col ->
  hasContent self (sp_imageData s) = true.
Proof.
  unfold extractFromImage. intros Hs Hk.
  destruct (detectSpriteType img (analyzeImage img)) as [|regions w h|cols rows cs];
    apply extract_detected_inv in Hs.
  - subst s. discriminate.
  - destruct Hs as (r & _ & Hk' & _). congruence.
  - destruct Hs as (? & ? & _ & _ & Hc). exact Hc.
Qed.

Lemma extractFromImage_grid_content_witness :
  In {| sp_imageData := grid_cell grid_sheet 32 0 0; sp_index := 0; sp_kind := KGrid 0 0 |}
     (extractFromImage default_extractor grid_sheet) /\
  hasContent default_extractor (grid_cell grid_sheet 32 0 0) = true.
Proof.
  assert (H : In {| sp_imageData := grid_cell grid_sheet 32 0 0; sp_index := 0;
                    sp_kind := KGrid 0 0 |}
                 (extractFromImage default_extractor grid_sheet)).
  { assert (Hd : detectSpriteType grid_sheet (analyzeImage grid_sheet) = DGrid 8 1 32)
      by (vm_compute; reflexivity).
    assert (Hf : filter (cell_passes default_extractor grid_sheet 32)
                   (flat_map (fun row => map (fun col => (row, col)) (zrange 0 8)) (zrange 0 1))
                 = [(0, 0)]) by (vm_compute; reflexivity).
    unfold extractFromImage. rewrite Hd. unfold extract_detected.
    rewrite grid_rows_spec, Hf. left. reflexivity. }
  split; [exact H|].
  exact (extractFromImage_grid_content default_extractor grid_sheet _ 0 0 H eq_refl).
Defined.

(** ** C10 *)

Lemma divmod_of q d r : 0 < d -> 0 <= r < d -> (q * d + r) / d = q /\ (q * d + r) mod d = r.
Proof.
  intros Hd Hr. split.
  - symmetry. apply Z.div_unique_pos with r; lia.
  - symmetry. apply Z.mod_unique_pos with q; lia.
Qed.

(** C10 (confirmed).  Every tile of the Regions branch is a square of side
    [max(region.width, region.height)]; its pixel [(i, j)] holds the source
    pixel [(region.x + i - offsetX, region.y + j - offsetY)] when [(i, j)]
    lies in the region's rectangle placed at
    [offsetX = floor((side - region.width)/2)],
    [offsetY = floor((side - region.height)/2)] (transparent where that
    source pixel is outside the image), and is transparent everywhere else. *)
Theorem extractFromImage_region_square (self : SpriteExtractor) (img : ImageData)
    (s : Sprite) (r : Region) :
  In s (extractFromImage self img) -> sp_kind s = KRegion r ->
  let side := Z.max (rwidth r) (rheight r) in
  let offsetX := (side - rwidth r) / 2 in
  let offsetY := (side - rheight r) / 2 in
  width (sp_imageData s) = side /\ height (sp_imageData s) = side /\
  forall i j c, 0 <= i < side -> 0 <= j < side -> 0 <= c < 4 ->
    let x := rx r + (i - offsetX) in
    let y := ry r + (j - offsetY) in
    data_at (sp_imageData s) ((j * side + i) * 4 + c) =
      Some (if (offsetX <=? i) && (i <? offsetX + rwidth r) &&
               (offsetY <=? j) && (j <? offsetY + rheight r)
            then if (0 <=? x) && (x <? width img) && (0 <=? y) && (y <? height img)
                 then bytes img ((y * width img + x) * 4 + c)
                 else 0
            else 0).
Proof.
  unfold extractFromImage. intros Hs Hk.
  destruct (detectSpriteType img (analyzeImage img)) as [|regions w h|cols rows cs];
    apply extract_detected_inv in Hs.
  - subst s. discriminate.
  - destruct Hs as (r' & _ & Hk' & Hi). rewrite Hk in Hk'. injection Hk' as <-.
    rewrite Hi. cbv zeta.
    split; [reflexivity|]. split; [reflexivity|].
    intros i j c Hi' Hj Hc.
    unfold region_canvas, drawImage, data_at, data_length. cbn [width height bytes blank].
    cbv zeta.
    set (side := Z.max (rwidth r) (rheight r)) in *.
    set (offsetX := (side - rwidth r) / 2).
    set (offsetY := (side - rheight r) / 2).
    replace ((0 <=? (j * side + i) * 4 + c) && ((j * side + i) * 4 + c <? side * side * 4))
      with true
      by (symmetry; apply andb_true_iff; split; [apply Z.leb_le | apply Z.ltb_lt]; nia).
    destruct (divmod_of (j * side + i) 4 c) as [Hq Hm]; [lia | lia |].
    rewrite Hq, Hm.
    destruct (divmod_of j side i) as [Hq' Hm']; [lia | lia |].
    replace (i + side * j) with (j * side + i) by ring.
    rewrite Hq', Hm'.
    destruct ((offsetX <=? i) && (i <? offsetX + rwidth r) &&
              (offsetY <=? j) && (j <? offsetY + rheight r)); reflexivity.
  - destruct Hs as (? & ? & Hk' & _). congruence.
Qed.

Lemma extractFromImage_region_square_witness :
  let r0 := mkRegion 8 2 16 16 in
  let s0 := {| sp_imageData := region_canvas two_sprites r0; sp_index := 0;
               sp_kind := KRegion r0 |} in
  In s0 (extractFromImage default_extractor two_sprites) /\ sp_kind s0 = KRegion r0 /\
  let side := Z.max (rwidth r0) (rheight r0) in
  let offsetX := (side - rwidth r0) / 2 in
  let offsetY := (side - rheight r0) / 2 in
  width (sp_imageData s0) = side /\ height (sp_imageData s0) = side /\
  forall i j c, 0 <= i < side -> 0 <= j < side -> 0 <= c < 4 ->
    let x := rx r0 + (i - offsetX) in
    let y := ry r0 + (j - offsetY) in
    data_at (sp_imageData s0) ((j * side + i) * 4 + c) =
      Some (if (offsetX <=? i) && (i <? offsetX + rwidth r0) &&
               (offsetY <=? j) && (j <? offsetY + rheight r0)
            then if (0 <=? x) && (x <? width two_sprites) && (0 <=? y) && (y <? height two_sprites)
                 then bytes two_sprites ((y * width two_sprites + x) * 4 + c)
                 else 0
            else 0).
Proof.
  intros r0 s0.
  assert (H : In s0 (extractFromImage default_extractor two_sprites)).
  { assert (Hd : detectSpriteType two_sprites (analyzeImage two_sprites) =
                 DRegions [r0; mkRegion 38 2 16 16] 200 20) by (vm_compute; reflexivity).
    unfold extractFromImage. rewrite Hd. left. reflexivity. }
  split; [exact H|]. split; [reflexivity|].
  exact (extractFromImage_region_square default_extractor two_sprites s0 r0 H eq_refl).
Defined.

(** ** C4 *)

(** C4 failing input: [tall_sprites] (200x20, two blocks spanning the full
    height) is classified as two regions whose [y + height] is 22, beyond
    the image height 20: content at row 0 clamps [y] to 0 while [height]
    is clamped against [imgHeight - minY + 2]. *)
Lemma trimRegion_exceeds_image :
  trimRegion tall_sprites 200 20 (mkRegion 5 0 26 20) = Some (mkRegion 8 0 16 22) /\
  detectSpriteType tall_sprites (analyzeImage tall_sprites) =
    DRegions [mkRegion 8 0 16 22; mkRegion 38 0 16 22] 200 20.
Proof. split; vm_compute; reflexivity. Qed.

(** ** C5 *)

(** C5 failing input: in [bottom_gap] rows 1 to 8 form a maximal run of 8
    empty rows that ends at the image border; it is not recorded, while the
    same run at the top border, in [top_gap], is. *)
Lemma findGaps_drops_trailing_run :
  map (rowEmpty bottom_gap 1) (zrange 0 9) =
    [false; true; true; true; true; true; true; true; true] /\
  findGaps bottom_gap 1 9 Horizontal = [] /\
  findGaps top_gap 1 9 Horizontal = [4].
Proof. repeat split; vm_compute; reflexivity. Qed.

(** ** C9 *)

(** C9 (confirmed).  Segmentation is deterministic: two buffers of the same
    size with the same bytes get the same detection result and the same
    tile list (count, order, indices, dimensions and pixel data). *)
Theorem segmentation_deterministic (self : SpriteExtractor) (img1 img2 : ImageData) :
  width img1 = width img2 -> height img1 = height img2 ->
  (forall k, bytes img1 k = bytes img2 k) ->
  detectSpriteType img1 (analyzeImage img1) = detectSpriteType img2 (analyzeImage img2) /\
  extractFromImage self img1 = extractFromImage self img2.
Proof.
  destruct img1 as [w1 h1 d1], img2 as [w2 h2 d2]; simpl.
  intros -> -> Hd. apply functional_extensionality in Hd. subst d2.
  split; reflexivity.
Qed.

Lemma segmentation_deterministic_witness :
  detectSpriteType two_sprites (analyzeImage two_sprites) =
    detectSpriteType (image_of 200 20 (fun x y => if x <? 30 then block 10 4 12 12 x y
                                                  else block 40 4 12 12 x y))
                     (analyzeImage (image_of 200 20 (fun x y => if x <? 30 then block 10 4 12 12 x y
                                                                else block 40 4 12 12 x y))) /\
  extractFromImage default_extractor two_sprites =
    extractFromImage default_extractor
      (image_of 200 20 (fun x y => if x <? 30 then block 10 4 12 12 x y else block 40 4 12 12 x y)).
Proof.
  apply segmentation_deterministic; reflexivity.
Defined.

(** * Further properties of the code *)

(** ** Folds *)

Lemma fold_left_establish {A B} (Q : A -> Prop) (f : A -> B -> A) l a b0 :
  (forall a b, In b l -> Q a -> Q (f a b)) -> In b0 l -> (forall a, Q (f a b0)) ->
  Q (fold_left f l a).
Proof.
  revert a; induction l as [|b l IH]; intros a Hpres Hin Hest; simpl; [destruct Hin|].
  destruct Hin as [<-|Hin].
  - apply fold_left_inv; [intros; apply Hpres; simpl; auto | apply Hest].
  - apply IH; auto. intros; apply Hpres; simpl; auto.
Qed.

Lemma fold_left_id {A B} (f : A -> B -> A) l a :
  (forall b, In b l -> f a b = a) -> fold_left f l a = a.
Proof.
  induction l as [|b l IH]; intros H; simpl; [reflexivity|].
  rewrite H by (left; reflexivity). apply IH. intros; apply H; right; assumption.
Qed.

(** ** trimRegion *)

Lemma trim_pixel_keeps data W st y x x0 y0 :
  box_has x0 y0 st -> box_has x0 y0 (trim_pixel data W st y x).
Proof.
  destruct st as [[[a b] c] d]; unfold trim_pixel, box_has. destruct (gt _ _); lia.
Qed.

Lemma trim_pixel_takes data W st y x :
  visible data W x y = true -> box_has x y (trim_pixel data W st y x).
Proof.
  destruct st as [[[a b] c] d]; unfold trim_pixel, visible, box_has. intros ->. lia.
Qed.

(** Every visible pixel of the scanned (clipped) rectangle ends up inside
    the box. *)
Lemma trim_bounds_covers data W H r x y :
  rx r <= x < Z.min (rx r + rwidth r) W -> ry r <= y < Z.min (ry r + rheight r) H ->
  visible data W x y = true -> box_has x y (trim_bounds data W H r).
Proof.
  intros Hx Hy Hv. unfold trim_bounds.
  apply (fold_left_establish _ _ _ _ y).
  - intros st y' _ Hst. apply fold_left_inv; [|exact Hst].
    intros; apply trim_pixel_keeps; assumption.
  - apply zrange_In; lia.
  - intros st. apply (fold_left_establish _ _ _ _ x).
    + intros; apply trim_pixel_keeps; assumption.
    + apply zrange_In; lia.
    + intros; apply trim_pixel_takes; exact Hv.
Qed.

(** Without a visible pixel the box keeps its initial value. *)
Lemma trim_bounds_init data W H r :
  (forall x y, rx r <= x < Z.min (rx r + rwidth r) W -> ry r <= y < Z.min (ry r + rheight r) H ->
     visible data W x y = false) ->
  trim_bounds data W H r = (rx r + rwidth r, ry r + rheight r, rx r, ry r).
Proof.
  intros Hno. unfold trim_bounds. apply fold_left_id. intros y Hy. apply zrange_In in Hy.
  apply fold_left_id. intros x Hx. apply zrange_In in Hx.
  unfold trim_pixel. unfold visible in Hno. rewrite Hno by lia. reflexivity.
Qed.

Lemma trim_bounds_lower data W H r :
  let '(minX, minY, _, _) := trim_bounds data W H r in
  Z.min (rx r + rwidth r) (rx r) <= minX /\ Z.min (ry r + rheight r) (ry r) <= minY.
Proof.
  unfold trim_bounds.
  apply (fold_left_inv (fun st : Z * Z * Z * Z => let '(minX, minY, _, _) := st in
           Z.min (rx r + rwidth r) (rx r) <= minX /\ Z.min (ry r + rheight r) (ry r) <= minY));
    [|lia].
  intros st y Hy Hst. apply zrange_In in Hy.
  apply fold_left_inv; [|exact Hst].
  intros [[[a b] c] d] x Hx Hs. apply zrange_In in Hx.
  unfold trim_pixel. destruct (gt _ _); lia.
Qed.

Lemma trimRegion_shape data W H r t :
  trimRegion data W H r = Some t ->
  exists minX minY,
    Z.min (rx r + rwidth r) (rx r) <= minX /\ Z.min (ry r + rheight r) (ry r) <= minY /\
    rx t = Z.max 0 (minX - padding) /\ ry t = Z.max 0 (minY - padding) /\
    rwidth t <= W - minX + padding /\ rheight t <= H - minY + padding.
Proof.
  unfold trimRegion. assert (Hl := trim_bounds_lower data W H r).
  destruct (trim_bounds data W H r) as [[[minX minY] maxX] maxY].
  destruct (_ || _); [discriminate|]. intros Ht; injection Ht as <-.
  exists minX, minY. simpl. lia.
Qed.

(** X1.  [trimRegion] returns [null] exactly when the scanned rectangle (the
    region clipped to the image) holds no pixel with alpha > 50 and the
    region is not empty in both directions; a region of width and height
    0 (or less) is never dropped. *)
Theorem trimRegion_None_iff data W H r :
  trimRegion data W H r = None <->
  (0 < rwidth r \/ 0 < rheight r) /\
  forall x y, rx r <= x < Z.min (rx r + rwidth r) W -> ry r <= y < Z.min (ry r + rheight r) H ->
    visible data W x y = false.
Proof.
  assert (Hsome : forall x y, rx r <= x < Z.min (rx r + rwidth r) W ->
                    ry r <= y < Z.min (ry r + rheight r) H ->
                    visible data W x y = true -> trimRegion data W H r <> None).
  { intros x y Hx Hy Hv. assert (Hb := trim_bounds_covers data W H r x y Hx Hy Hv).
    unfold trimRegion. destruct (trim_bounds data W H r) as [[[a b] c] d].
    unfold box_has in Hb.
    replace ((c <? a) || (d <? b)) with false
      by (symmetry; apply orb_false_iff; split; apply Z.ltb_ge; lia).
    discriminate. }
  split.
  - intros Hn.
    assert (Hno : forall x y, rx r <= x < Z.min (rx r + rwidth r) W ->
                    ry r <= y < Z.min (ry r + rheight r) H -> visible data W x y = false).
    { intros x y Hx Hy. destruct (visible data W x y) eqn:Hv; [|reflexivity].
      exfalso. exact (Hsome x y Hx Hy Hv Hn). }
    split; [|exact Hno].
    unfold trimRegion in Hn. rewrite (trim_bounds_init _ _ _ _ Hno) in Hn.
    destruct ((rx r <? rx r + rwidth r) || (ry r <? ry r + rheight r)) eqn:E; [|discriminate].
    apply orb_true_iff in E. destruct E as [E|E]; apply Z.ltb_lt in E; lia.
  - intros [Hpos Hno]. unfold trimRegion. rewrite (trim_bounds_init _ _ _ _ Hno).
    replace ((rx r <? rx r + rwidth r) || (ry r <? ry r + rheight r)) with true
      by (symmetry; apply orb_true_iff; destruct Hpos; [left | right]; apply Z.ltb_lt; lia).
    reflexivity.
Qed.

(** X2.  For a region starting inside the image, the trimmed region contains
    every visible pixel of the scanned rectangle: trimming never cuts
    content off. *)
Theorem trimRegion_covers data W H r t x y :
  0 <= rx r -> 0 <= ry r -> trimRegion data W H r = Some t ->
  rx r <= x < Z.min (rx r + rwidth r) W -> ry r <= y < Z.min (ry r + rheight r) H ->
  visible data W x y = true ->
  rx t <= x < rx t + rwidth t /\ ry t <= y < ry t + rheight t.
Proof.
  intros Hrx Hry Ht Hx Hy Hv.
  assert (Hb := trim_bounds_covers data W H r x y Hx Hy Hv).
  revert Ht. unfold trimRegion.
  destruct (trim_bounds data W H r) as [[[minX minY] maxX] maxY].
  destruct (_ || _); [discriminate|]. intros Ht; injection Ht as <-.
  unfold box_has in Hb. unfold padding. simpl. lia.
Qed.

Lemma trimRegion_covers_witness :
  0 <= rx (mkRegion 0 0 30 20) /\ 0 <= ry (mkRegion 0 0 30 20) /\
  trimRegion two_sprites 200 20 (mkRegion 0 0 30 20) = Some (mkRegion 8 2 16 16) /\
  rx (mkRegion 0 0 30 20) <= 10 < Z.min (rx (mkRegion 0 0 30 20) + rwidth (mkRegion 0 0 30 20)) 200 /\
  ry (mkRegion 0 0 30 20) <= 4 < Z.min (ry (mkRegion 0 0 30 20) + rheight (mkRegion 0 0 30 20)) 20 /\
  visible two_sprites 200 10 4 = true /\
  (rx (mkRegion 8 2 16 16) <= 10 < rx (mkRegion 8 2 16 16) + rwidth (mkRegion 8 2 16 16) /\
   ry (mkRegion 8 2 16 16) <= 4 < ry (mkRegion 8 2 16 16) + rheight (mkRegion 8 2 16 16)).
Proof.
  assert (Ht : trimRegion two_sprites 200 20 (mkRegion 0 0 30 20) = Some (mkRegion 8 2 16 16))
    by (vm_compute; reflexivity).
  assert (Hv : visible two_sprites 200 10 4 = true) by (vm_compute; reflexivity).
  assert (Hc := trimRegion_covers two_sprites 200 20 (mkRegion 0 0 30 20) _ 10 4
                  ltac:(simpl; lia) ltac:(simpl; lia) Ht ltac:(simpl; lia) ltac:(simpl; lia) Hv).
  refine (conj _ (conj _ (conj Ht (conj _ (conj _ (conj Hv Hc)))))); simpl; lia.
Defined.



(** ** regionHasContent *)

Lemma count_exceeds_count data l c :
  c <= 100 ->
  count_exceeds data l c =
    (100 <? c + Z.of_nat (length (filter (fun idx => gt (data_at data (idx + 3)) 50) l))).
Proof.
  revert c; induction l as [|idx l IH]; intros c Hc; simpl.
  - symmetry. apply Z.ltb_ge. lia.
  - destruct (gt (data_at data (idx + 3)) 50); simpl length.
    + destruct (Z.ltb_spec 100 (c + 1)).
      * symmetry. apply Z.ltb_lt. lia.
      * rewrite IH by lia. f_equal. lia.
    + apply IH, Hc.
Qed.

Lemma length_filter_map {T U} (f : U -> bool) (g : T -> U) l :
  length (filter f (map g l)) = length (filter (fun x => f (g x)) l).
Proof. induction l as [|x l IH]; simpl; [|destruct (f (g x)); simpl]; auto. Qed.

Lemma length_filter_flat_map {T U} (f : U -> bool) (g : T -> list U) l :
  length (filter f (flat_map g l)) = list_sum (map (fun x => length (filter f (g x))) l).
Proof.
  induction l as [|x l IH]; simpl; [reflexivity|].
  rewrite filter_app, length_app, IH. reflexivity.
Qed.

(** X4.  The early [return true] of [regionHasContent] does not change its
    answer: the region has content exactly when more than 100 of its pixels
    have alpha > 50. *)
Theorem regionHasContent_count data imgWidth region :
  regionHasContent data imgWidth region =
    (100 <? Z.of_nat (length (filter (fun p => visible data imgWidth (fst p) (snd p))
                                     (region_pixels region)))).
Proof.
  unfold regionHasContent. rewrite count_exceeds_count by lia.
  unfold region_offsets, region_pixels.
  rewrite !length_filter_flat_map, Z.add_0_l. do 3 f_equal.
  apply map_ext. intros y. rewrite !length_filter_map. reflexivity.
Qed.

(** ** findGaps *)

(** State of the gap scan once the coordinates [0 .. i - 1] are read. *)
Lemma gap_step_inv (e : Z -> bool) (i gs : Z) (gaps : list Z) :
  0 <= i ->
  (gs = -1 \/ (0 <= gs < i /\ forall k, gs <= k < i -> e k = true)) ->
  StronglySorted (fun a b => a + 9 <= b) gaps ->
  (forall g, In g gaps -> 4 <= g /\ g + 4 < i /\ (forall k, g - 4 <= k <= g + 3 -> e k = true) /\
                          (gs <> -1 -> g + 5 <= gs)) ->
  let '(gs', gaps') := gap_step (gs, gaps) i (e i) in
  (gs' = -1 \/ (0 <= gs' < i + 1 /\ forall k, gs' <= k < i + 1 -> e k = true)) /\
  StronglySorted (fun a b => a + 9 <= b) gaps' /\
  (forall g, In g gaps' -> 4 <= g /\ g + 4 < i + 1 /\
                           (forall k, g - 4 <= k <= g + 3 -> e k = true) /\
                           (gs' <> -1 -> g + 5 <= gs')).
Proof.
  intros Hi Hgs Hs Hg. unfold gap_step. destruct (e i) eqn:Ei.
  - destruct (Z.eqb_spec gs (-1)) as [E|E].
    + split; [right; split; [lia|] | split; [exact Hs|]].
      * intros k Hk. replace k with i by lia. exact Ei.
      * intros g Hin. destruct (Hg g Hin) as (H1 & H2 & H3 & _). repeat split; auto; lia.
    + destruct Hgs as [Hgs|(Hgs & Hk)]; [contradiction|].
      split; [right; split; [lia|] | split; [exact Hs|]].
      * intros k Hk'. destruct (Z.eq_dec k i) as [->|]; [exact Ei|]. apply Hk; lia.
      * intros g Hin. destruct (Hg g Hin) as (H1 & H2 & H3 & H4). repeat split; auto; lia.
  - split; [left; reflexivity|].
    destruct (negb (gs =? -1) && (minGapSize <=? i - gs)) eqn:Egap.
    + apply andb_true_iff in Egap. destruct Egap as [E1 E2].
      apply negb_true_iff, Z.eqb_neq in E1. apply Z.leb_le in E2. unfold minGapSize in E2.
      destruct Hgs as [Hgs|(Hgs & Hk)]; [contradiction|].
      assert (Hlo : gs + 4 <= (gs + i) / 2) by (apply Z.div_le_lower_bound; lia).
      assert (Hhi : (gs + i) / 2 <= i - 4) by (apply Z.div_le_upper_bound; lia).
      split.
      * clear Hk. induction Hs as [|a l Hl IHl Ha]; simpl.
        -- constructor; constructor.
        -- constructor.
           ++ apply IHl. intros g Hin. apply Hg. right; exact Hin.
           ++ apply Forall_app. split; [exact Ha|]. constructor; [|constructor].
              destruct (Hg a (or_introl eq_refl)) as (_ & _ & _ & H4). specialize (H4 E1). lia.
      * intros g Hin. apply in_app_or in Hin. destruct Hin as [Hin|[<-|[]]].
        -- destruct (Hg g Hin) as (H1 & H2 & H3 & _). repeat split; auto; lia.
        -- repeat split; try lia. intros k Hk'. apply Hk. lia.
    + split; [exact Hs|].
      intros g Hin. destruct (Hg g Hin) as (H1 & H2 & H3 & _). repeat split; auto; lia.
Qed.

Lemma gap_scan_inv (e : Z -> bool) lo n gs gaps :
  0 <= lo ->
  (gs = -1 \/ (0 <= gs < lo /\ forall k, gs <= k < lo -> e k = true)) ->
  StronglySorted (fun a b => a + 9 <= b) gaps ->
  (forall g, In g gaps -> 4 <= g /\ g + 4 < lo /\ (forall k, g - 4 <= k <= g + 3 -> e k = true) /\
                          (gs <> -1 -> g + 5 <= gs)) ->
  let '(_, gaps') := fold_left (fun st i => gap_step st i (e i)) (zrange_from lo n) (gs, gaps) in
  StronglySorted (fun a b => a + 9 <= b) gaps' /\
  (forall g, In g gaps' -> 4 <= g /\ g + 4 < lo + Z.of_nat n /\
                           (forall k, g - 4 <= k <= g + 3 -> e k = true)).
Proof.
  revert lo gs gaps; induction n as [|n IH]; intros lo gs gaps Hlo Hgs Hs Hg;
    cbn [zrange_from fold_left]; rewrite ?Nat2Z.inj_succ.
  - split; [exact Hs|]. intros g Hin. destruct (Hg g Hin) as (H1 & H2 & H3 & _).
    repeat split; auto; lia.
  - assert (Hstep := gap_step_inv e lo gs gaps Hlo Hgs Hs Hg).
    destruct (gap_step (gs, gaps) lo (e lo)) as [gs' gaps'].
    destruct Hstep as (H1 & H2 & H3).
    assert (IH' := IH (lo + 1) gs' gaps' ltac:(lia) H1 H2 H3).
    destruct (fold_left _ _ _) as [gs'' gaps'']. destruct IH' as [IH1 IH2].
    split; [exact IH1|]. intros g Hin. destruct (IH2 g Hin) as (G1 & G2 & G3).
    repeat split; auto; lia.
Qed.

Lemma gap_scan_spec (e : Z -> bool) n :
  let gaps := snd (fold_left (fun st i => gap_step st i (e i)) (zrange 0 n) (-1, [])) in
  StronglySorted (fun a b => a + 9 <= b) gaps /\
  (forall g, In g gaps -> 4 <= g <= n - 5 /\ (forall k, g - 4 <= k <= g + 3 -> e k = true)).
Proof.
  unfold zrange. rewrite Z.sub_0_r.
  assert (H := gap_scan_inv e 0 (Z.to_nat n) (-1) [] ltac:(lia) (or_introl eq_refl)
                 (SSorted_nil _) ltac:(intros g [])).
  destruct (fold_left _ _ _) as [gs gaps]. simpl. destruct H as [H1 H2].
  split; [exact H1|]. intros g Hin. destruct (H2 g Hin) as (G1 & G2 & G3).
  repeat split; auto; lia.
Qed.

(** X5.  The gaps found by [findGaps] are increasing and at least 9 apart; each
    lies in [4 .. n - 5] ([n] the height for rows, the width for columns)
    and is the centre of at least 8 consecutive empty rows (columns):
    [g - 4 .. g + 3] are all empty. *)
Theorem findGaps_spaced data width height d :
  let n := match d with Horizontal => height | Vertical => width end in
  let empty := match d with
               | Horizontal => rowEmpty data width
               | Vertical => colEmpty data width height
               end in
  StronglySorted (fun a b => a + 9 <= b) (findGaps data width height d) /\
  forall g, In g (findGaps data width height d) ->
    4 <= g <= n - 5 /\ forall k, g - 4 <= k <= g + 3 -> empty k = true.
Proof.
  destruct d; simpl; apply gap_scan_spec.
Qed.

(** ** findSpriteRegions *)

Lemma nth_prop {T} (P : T -> Prop) i l d :
  (forall x, In x l -> P x) -> P d -> P (nth i l d).
Proof. intros Hl Hd. destruct (nth_in_or_default i l d) as [H| ->]; auto. Qed.

Lemma boundaries_range data width height d :
  0 <= match d with Horizontal => height | Vertical => width end ->
  forall z, In z (0 :: findGaps data width height d ++
                    [match d with Horizontal => height | Vertical => width end]) ->
  0 <= z <= match d with Horizontal => height | Vertical => width end.
Proof.
  intros Hn z Hz. destruct (findGaps_spaced data width height d) as [_ Hg].
  destruct Hz as [<-|Hz]; [lia|]. apply in_app_or in Hz.
  destruct Hz as [Hz|[<-|[]]]; [|lia].
  destruct (Hg z Hz) as [Hr _]. destruct d; lia.
Qed.

(** X6.  For an image of non-negative size, every region returned by
    [findSpriteRegions] starts inside the image, ends at most 2 pixels
    past its right and bottom edges, and is wider and taller than 10. *)
Theorem findSpriteRegions_within data W H r :
  0 <= W -> 0 <= H -> In r (findSpriteRegions data W H) ->
  0 <= rx r /\ 0 <= ry r /\ rx r + rwidth r <= W + 2 /\ ry r + rheight r <= H + 2 /\
  10 < rwidth r /\ 10 < rheight r.
Proof.
  intros HW HH. unfold findSpriteRegions.
  assert (Hx := boundaries_range data W H Vertical HW).
  assert (Hy := boundaries_range data W H Horizontal HH). cbv beta iota in Hx, Hy.
  destruct (_ && _); [intros []|].
  revert r.
  pose (P := fun r => 0 <= rx r /\ 0 <= ry r /\ rx r + rwidth r <= W + 2 /\
                      ry r + rheight r <= H + 2 /\ 10 < rwidth r /\ 10 < rheight r).
  apply (fold_left_inv (fun acc => forall r, In r acc -> P r)); [|intros r []].
  intros acc yi _ Hacc.
  apply (fold_left_inv (fun acc => forall r, In r acc -> P r)); [|exact Hacc].
  intros acc' xi _ Hacc' r Hr. unfold region_cell in Hr.
  destruct (regionHasContent _ _ _); [|apply Hacc', Hr].
  destruct (trimRegion _ _ _ _) as [t|] eqn:Ht; [|apply Hacc', Hr].
  destruct (10 <? rwidth t) eqn:E1, (10 <? rheight t) eqn:E2; simpl in Hr;
    try (apply Hacc', Hr).
  apply in_app_or in Hr. destruct Hr as [Hr|[Hr|[]]]; [apply Hacc', Hr|].
  subst r. apply Z.ltb_lt in E1, E2.
  destruct (trimRegion_shape _ _ _ _ _ Ht) as (minX & minY & H1 & H2 & H3 & H4 & H5 & H6).
  cbn [rx ry rwidth rheight] in H1, H2.
  assert (X0 := nth_prop (fun z => 0 <= z <= W) xi _ 0 Hx ltac:(cbv beta; lia)).
  assert (X1 := nth_prop (fun z => 0 <= z <= W) (S xi) _ 0 Hx ltac:(cbv beta; lia)).
  assert (Y0 := nth_prop (fun z => 0 <= z <= H) yi _ 0 Hy ltac:(cbv beta; lia)).
  assert (Y1 := nth_prop (fun z => 0 <= z <= H) (S yi) _ 0 Hy ltac:(cbv beta; lia)).
  cbv beta in X0, X1, Y0, Y1.
  unfold P, padding in *. lia.
Qed.

Lemma findSpriteRegions_within_witness :
  0 <= 200 /\ 0 <= 20 /\ In (mkRegion 8 2 16 16) (findSpriteRegions two_sprites 200 20) /\
  (0 <= 8 /\ 0 <= 2 /\ 8 + 16 <= 200 + 2 /\ 2 + 16 <= 20 + 2 /\ 10 < 16 /\ 10 < 16).
Proof.
  assert (Hf : findSpriteRegions two_sprites 200 20 = [mkRegion 8 2 16 16; mkRegion 38 2 16 16])
    by (vm_compute; reflexivity).
  assert (Hin : In (mkRegion 8 2 16 16) (findSpriteRegions two_sprites 200 20))
    by (rewrite Hf; left; reflexivity).
  split; [lia|]. split; [lia|]. split; [exact Hin|].
  exact (findSpriteRegions_within two_sprites 200 20 _ ltac:(lia) ltac:(lia) Hin).
Defined.

(** ** The canvas read back by analyzeImage *)

Lemma data_at_canvas_of img idx :
  0 <= width img -> data_at (canvas_of img) idx = data_at img idx.
Proof.
  intros Hw. unfold data_at, data_length, canvas_of, drawImage. cbn [width height bytes blank].
  destruct ((0 <=? idx) && (idx <? width img * height img * 4)) eqn:E; [|reflexivity].
  apply andb_true_iff in E. destruct E as [E1 E2]. apply Z.leb_le in E1. apply Z.ltb_lt in E2.
  f_equal.
  set (w := width img) in *. set (h := height img) in *.
  assert (Hwh : 0 < w * h) by lia.
  assert (Hw' : 0 < w)
    by (destruct (Z.eq_dec w 0) as [E|E]; [rewrite E in Hwh; simpl in Hwh; lia | lia]).
  assert (Hh' : 0 < h) by nia.
  assert (Hp := Z.div_mod idx 4 ltac:(lia)). assert (Hc := Z.mod_pos_bound idx 4 ltac:(lia)).
  assert (Hp0 : 0 <= idx / 4 < w * h)
    by (split; [apply Z.div_pos | apply Z.div_lt_upper_bound]; lia).
  assert (Hq := Z.div_mod (idx / 4) w ltac:(lia)).
  assert (Hi := Z.mod_pos_bound (idx / 4) w ltac:(lia)).
  assert (Hj : 0 <= idx / 4 / w < h)
    by (split; [apply Z.div_pos | apply Z.div_lt_upper_bound]; lia).
  replace ((0 <=? idx / 4 mod w) && (idx / 4 mod w <? 0 + w) && (0 <=? idx / 4 / w) &&
           (idx / 4 / w <? 0 + h) && (0 <=? 0 + (idx / 4 mod w - 0)) &&
           (0 + (idx / 4 mod w - 0) <? w) && (0 <=? 0 + (idx / 4 / w - 0)) &&
           (0 + (idx / 4 / w - 0) <? h)) with true
    by (symmetry; repeat rewrite andb_true_iff; repeat split;
        first [apply Z.leb_le | apply Z.ltb_lt]; lia).
  f_equal. rewrite !Z.add_0_l, !Z.sub_0_r. lia.
Qed.

(** ** Fully opaque images *)

Lemma analyzeImage_opaque img :
  0 <= width img -> 0 <= height img -> all_opaque img = true ->
  hasTransparency (analyzeImage img) = false.
Proof.
  intros Hw Hh Hop. unfold all_opaque in Hop. rewrite forallb_forall in Hop.
  unfold analyzeImage.
  assert (Htp : st_tp (fold_left (fun st y =>
                   fold_left (fun st x => analyze_pixel (canvas_of img) (width img) (height img) st y x)
                             (zrange 0 (width img)) st)
                 (zrange 0 (height img)) (0, 0, 0, 0)) = 0).
  { apply (fold_left_inv (fun st => st_tp st = 0)); [|reflexivity].
    intros st y Hy Hst. specialize (Hop y Hy). rewrite forallb_forall in Hop.
    apply (fold_left_inv (fun st => st_tp st = 0)); [|exact Hst].
    intros [[[tp op] et] te] x Hx Htp. specialize (Hop x Hx).
    apply negb_true_iff in Hop. simpl in Htp.
    unfold analyze_pixel. rewrite data_at_canvas_of, Hop by exact Hw.
    destruct (_ || _); simpl; exact Htp. }
  destruct (fold_left _ _ _) as [[[tp op] et] te]. simpl in Htp. subst tp. simpl.
  apply Z.ltb_ge. nia.
Qed.

(** X7.  An image whose every pixel has alpha >= 128 is never segmented: it is
    extracted as the single whole-image sprite, whatever its size. *)
Theorem extractFromImage_opaque self img :
  0 <= width img -> 0 <= height img -> all_opaque img = true ->
  extractFromImage self img =
    [{| sp_imageData := canvas_of img; sp_index := 0; sp_kind := KSingle |}].
Proof.
  intros Hw Hh Hop. unfold extractFromImage, detectSpriteType.
  rewrite (analyzeImage_opaque img Hw Hh Hop). cbv zeta. simpl andb.
  destruct (_ && _); [reflexivity|]. destruct (negb _); reflexivity.
Qed.

Lemma extractFromImage_opaque_witness :
  0 <= width (image_of 200 2 (fun _ _ => red)) /\ 0 <= height (image_of 200 2 (fun _ _ => red)) /\
  all_opaque (image_of 200 2 (fun _ _ => red)) = true /\
  extractFromImage default_extractor (image_of 200 2 (fun _ _ => red)) =
    [{| sp_imageData := canvas_of (image_of 200 2 (fun _ _ => red)); sp_index := 0;
        sp_kind := KSingle |}].
Proof.
  assert (Hop : all_opaque (image_of 200 2 (fun _ _ => red)) = true) by (vm_compute; reflexivity).
  split; [simpl; lia|]. split; [simpl; lia|]. split; [exact Hop|].
  apply (extractFromImage_opaque default_extractor); [simpl; lia | simpl; lia | exact Hop].
Defined.

(** ** Grid extraction *)

Lemma detectGrid_loop_some w h l g :
  (forall s, In s l -> 16 <= s) -> detectGrid_loop w h l = Some g ->
  g_cols g * g_cellSize g = w /\ g_rows g * g_cellSize g = h /\
  2 <= g_cols g /\ 1 <= g_rows g /\ g_cols g * g_rows g <= 64 /\ In (g_cellSize g) l.
Proof.
  induction l as [|size l IH]; intros Hl; simpl; [discriminate|].
  assert (Hs : 16 <= size) by (apply Hl; left; reflexivity).
  destruct ((w mod size =? 0) && (h mod size =? 0)) eqn:Ed.
  - destruct ((2 <=? w / size) && (1 <=? h / size) && (2 <=? w / size * (h / size)) &&
              (w / size * (h / size) <=? 64)) eqn:Ea.
    + intros Hg; injection Hg as <-. simpl.
      apply andb_true_iff in Ed. destruct Ed as [Ew Eh]. apply Z.eqb_eq in Ew, Eh.
      repeat rewrite andb_true_iff in Ea. destruct Ea as [[[E1 E2] E3] E4].
      apply Z.leb_le in E1, E2, E3, E4.
      assert (Hw := Z.div_mod w size ltac:(lia)). assert (Hh := Z.div_mod h size ltac:(lia)).
      repeat split; try lia; auto.
    + intros Hg. destruct (IH (fun s Hin => Hl s (or_intror Hin)) Hg) as (? & ? & ? & ? & ? & ?).
      repeat split; auto.
  - intros Hg. destruct (IH (fun s Hin => Hl s (or_intror Hin)) Hg) as (? & ? & ? & ? & ? & ?).
    repeat split; auto.
Qed.

Lemma detectGrid_some w h g :
  detectGrid w h = Some g ->
  g_cols g * g_cellSize g = w /\ g_rows g * g_cellSize g = h /\
  2 <= g_cols g /\ 1 <= g_rows g /\ g_cols g * g_rows g <= 64 /\ In (g_cellSize g) possibleSizes.
Proof.
  apply detectGrid_loop_some. intros s Hs. simpl in Hs. intuition lia.
Qed.

Lemma extract_grid_inv self img cols rows cs s :
  In s (extract_detected self img (DGrid cols rows cs)) ->
  exists row col, 0 <= row < rows /\ 0 <= col < cols /\ sp_kind s = KGrid row col /\
                  sp_imageData s = grid_cell img cs row col.
Proof.
  simpl. rewrite grid_rows_spec. simpl. intros Hs.
  destruct (In_numbered _ _ _ _ _ Hs) as (row & col & Hin & Hk & Hi).
  apply In_firstn_In, filter_In in Hin. destruct Hin as [Hin _].
  apply in_flat_map in Hin. destruct Hin as (row' & Hrow & Hin).
  apply in_map_iff in Hin. destruct Hin as (col' & Heq & Hcol). injection Heq as -> ->.
  apply zrange_In in Hrow, Hcol. exists row, col. auto.
Qed.

Lemma grid_cell_data img cs row col i j c :
  0 < cs -> 0 <= row -> 0 <= col ->
  (row + 1) * cs <= height img -> (col + 1) * cs <= width img ->
  0 <= i < cs -> 0 <= j < cs -> 0 <= c < 4 ->
  data_at (grid_cell img cs row col) ((j * cs + i) * 4 + c) =
  data_at img (((row * cs + j) * width img + (col * cs + i)) * 4 + c).
Proof.
  intros Hcs Hr Hc Hrh Hcw Hi Hj Hc4.
  unfold grid_cell, data_at, drawImage, data_length. cbn [width height bytes blank].
  replace ((0 <=? (j * cs + i) * 4 + c) && ((j * cs + i) * 4 + c <? cs * cs * 4)) with true
    by (symmetry; apply andb_true_iff; split; [apply Z.leb_le | apply Z.ltb_lt]; nia).
  replace ((0 <=? ((row * cs + j) * width img + (col * cs + i)) * 4 + c) &&
           (((row * cs + j) * width img + (col * cs + i)) * 4 + c <? width img * height img * 4))
    with true
    by (symmetry; apply andb_true_iff; split; [apply Z.leb_le | apply Z.ltb_lt]; nia).
  f_equal.
  destruct (divmod_of (j * cs + i) 4 c) as [Hq Hm]; [lia | lia |]. rewrite Hq, Hm.
  destruct (divmod_of j cs i) as [Hq' Hm']; [lia | lia |]. rewrite Hq', Hm'.
  replace ((0 <=? i) && (i <? 0 + cs) && (0 <=? j) && (j <? 0 + cs) &&
           (0 <=? col * cs + (i - 0)) && (col * cs + (i - 0) <? width img) &&
           (0 <=? row * cs + (j - 0)) && (row * cs + (j - 0) <? height img)) with true
    by (symmetry; repeat rewrite andb_true_iff; repeat split;
        first [apply Z.leb_le | apply Z.ltb_lt]; nia).
  rewrite !Z.sub_0_r. reflexivity.
Qed.

(** X8.  Grid tiles are exact copies of the image's cells: the cell size is one
    of [128, 96, 64, 48, 32, 16], the cell [(row, col)] lies wholly inside
    the image (the grid tiles the image with no clipping), and the tile's
    pixel [(i, j)] is the image's pixel [(col * cellSize + i, row * cellSize + j)]. *)
Theorem extractFromImage_grid_tile self img s row col :
  In s (extractFromImage self img) -> sp_kind s = KGrid row col ->
  exists cs, In cs possibleSizes /\
    width (sp_imageData s) = cs /\ height (sp_imageData s) = cs /\
    0 <= col /\ (col + 1) * cs <= width img /\ 0 <= row /\ (row + 1) * cs <= height img /\
    forall i j c, 0 <= i < cs -> 0 <= j < cs -> 0 <= c < 4 ->
      data_at (sp_imageData s) ((j * cs + i) * 4 + c) =
      data_at img (((row * cs + j) * width img + (col * cs + i)) * 4 + c).
Proof.
  unfold extractFromImage. intros Hs Hk.
  destruct (detectSpriteType img (analyzeImage img)) as [|regions w h|cols rows cs] eqn:Hd.
  - apply extract_detected_inv in Hs. subst s. discriminate.
  - apply extract_detected_inv in Hs. destruct Hs as (r & _ & Hk' & _). congruence.
  - apply extract_grid_inv in Hs. destruct Hs as (row' & col' & Hrow & Hcol & Hk' & Hi).
    rewrite Hk in Hk'. injection Hk' as <- <-.
    apply detectSpriteType_grid, detectGrid_some in Hd. simpl in Hd.
    destruct Hd as (Hw & Hh & H1 & H2 & H3 & Hcs).
    assert (Hpos : 16 <= cs) by (simpl in Hcs; intuition lia).
    exists cs. rewrite Hi. split; [exact Hcs|]. split; [reflexivity|]. split; [reflexivity|].
    repeat split; try nia.
    intros i j c Hi' Hj Hc. apply grid_cell_data; nia.
Qed.

Lemma extractFromImage_grid_tile_witness :
  let s0 := {| sp_imageData := grid_cell grid_sheet 32 0 0; sp_index := 0; sp_kind := KGrid 0 0 |} in
  In s0 (extractFromImage default_extractor grid_sheet) /\ sp_kind s0 = KGrid 0 0 /\
  exists cs, In cs possibleSizes /\
    width (sp_imageData s0) = cs /\ height (sp_imageData s0) = cs /\
    0 <= 0 /\ (0 + 1) * cs <= width grid_sheet /\ 0 <= 0 /\ (0 + 1) * cs <= height grid_sheet /\
    forall i j c, 0 <= i < cs -> 0 <= j < cs -> 0 <= c < 4 ->
      data_at (sp_imageData s0) ((j * cs + i) * 4 + c) =
      data_at grid_sheet (((0 * cs + j) * width grid_sheet + (0 * cs + i)) * 4 + c).
Proof.
  intros s0.
  assert (H : In s0 (extractFromImage default_extractor grid_sheet)).
  { assert (Hd : detectSpriteType grid_sheet (analyzeImage grid_sheet) = DGrid 8 1 32)
      by (vm_compute; reflexivity).
    assert (Hf : filter (cell_passes default_extractor grid_sheet 32)
                   (flat_map (fun row => map (fun col => (row, col)) (zrange 0 8)) (zrange 0 1))
                 = [(0, 0)]) by (vm_compute; reflexivity).
    unfold extractFromImage. rewrite Hd. unfold extract_detected.
    rewrite grid_rows_spec, Hf. left. reflexivity. }
  split; [exact H|]. split; [reflexivity|].
  exact (extractFromImage_grid_tile default_extractor grid_sheet s0 0 0 H eq_refl).
Defined.

(** ** Number and numbering of the sprites *)

Lemma detectSpriteType_regions_count img a regions w h :
  detectSpriteType img a = DRegions regions w h -> (1 <= length regions <= 20)%nat.
Proof.
  unfold detectSpriteType. cbv zeta.
  destruct (_ && _); [discriminate|].
  destruct (hasTransparency a && hasTransparentEdges a).
  - destruct ((0 <? Z.of_nat (length (findSpriteRegions (imageData a) (width img) (height img)))) &&
              (Z.of_nat (length (findSpriteRegions (imageData a) (width img) (height img))) <=? 20))
      eqn:E.
    + intros H; injection H as <- _ _.
      apply andb_true_iff in E. destruct E as [E1 E2].
      apply Z.ltb_lt in E1. apply Z.leb_le in E2. lia.
    + destruct (detectGrid _ _); [discriminate|]. destruct (negb _); discriminate.
  - destruct (negb _); discriminate.
Qed.

Lemma length_flat_map_const {T U} (f : T -> list U) k l :
  (forall x, length (f x) = k) -> length (flat_map f l) = (length l * k)%nat.
Proof.
  intros Hf. induction l as [|x l IH]; simpl; [reflexivity|].
  rewrite length_app, IH, Hf. reflexivity.
Qed.

Lemma length_grid_cells rows cols :
  length (flat_map (fun row => map (fun col => (row, col)) (zrange 0 cols)) (zrange 0 rows)) =
  (Z.to_nat rows * Z.to_nat cols)%nat.
Proof.
  rewrite (length_flat_map_const _ (Z.to_nat cols)).
  - rewrite zrange_length, Z.sub_0_r. reflexivity.
  - intros row. rewrite length_map, zrange_length, Z.sub_0_r. reflexivity.
Qed.

Lemma length_filter_le {T} (f : T -> bool) l : (length (filter f l) <= length l)%nat.
Proof. induction l as [|x l IH]; simpl; [|destruct (f x); simpl]; lia. Qed.

Lemma extract_grid_eq self img cols rows cs :
  extract_detected self img (DGrid cols rows cs) =
  numbered img cs 0
    (firstn (Z.to_nat (maxSprites self))
       (filter (cell_passes self img cs)
          (flat_map (fun row => map (fun col => (row, col)) (zrange 0 cols)) (zrange 0 rows)))).
Proof. simpl. rewrite grid_rows_spec. simpl. rewrite Nat.sub_0_r. reflexivity. Qed.

Lemma regions_fold_length img regions acc :
  length (fold_left (fun sprites region => sprites ++ [region_sprite img sprites region])
                    regions acc) = (length acc + length regions)%nat.
Proof.
  revert acc; induction regions as [|r regions IH]; intros acc; simpl; [lia|].
  rewrite IH, length_app. simpl. lia.
Qed.

(** X9.  The number of sprites: one in the Single branch; one per region, 1 to
    20, in the Regions branch; at most [maxSprites] and at most
    [cols * rows] in the Grid branch.  So extraction never returns more
    than 64 sprites, and it returns none only in the Grid branch. *)
Theorem extractFromImage_count self img :
  let n := length (extractFromImage self img) in
  (n <= 64)%nat /\
  match detectSpriteType img (analyzeImage img) with
  | DSingle => n = 1%nat
  | DRegions regions _ _ => n = length regions /\ (1 <= n <= 20)%nat
  | DGrid cols rows _ => (n <= Z.to_nat (maxSprites self))%nat /\ Z.of_nat n <= cols * rows
  end.
Proof.
  unfold extractFromImage.
  destruct (detectSpriteType img (analyzeImage img)) as [|regions w h|cols rows cs] eqn:Hd.
  - simpl. lia.
  - apply detectSpriteType_regions_count in Hd. simpl extract_detected.
    rewrite regions_fold_length. simpl. lia.
  - apply detectSpriteType_grid, detectGrid_some in Hd. simpl in Hd.
    destruct Hd as (_ & _ & H1 & H2 & H3 & _).
    rewrite extract_grid_eq, length_numbered, length_firstn.
    assert (Hf := length_filter_le (cell_passes self img cs)
                    (flat_map (fun row => map (fun col => (row, col)) (zrange 0 cols))
                              (zrange 0 rows))).
    rewrite length_grid_cells in Hf.
    assert (Hn : (Z.to_nat rows * Z.to_nat cols <= 64)%nat).
    { rewrite <- Z2Nat.inj_mul by lia. replace 64%nat with (Z.to_nat 64) by reflexivity.
      apply Z2Nat.inj_le; lia. }
    split; [lia|]. split; [lia|].
    rewrite Nat2Z.inj_min. rewrite Z.min_le_iff. right.
    apply (Z.le_trans _ (Z.of_nat (Z.to_nat rows * Z.to_nat cols))); [lia|].
    rewrite Nat2Z.inj_mul, !Z2Nat.id by lia. lia.
Qed.

Lemma numbered_indices img cs k l :
  map sp_index (numbered img cs k l) = map Z.of_nat (seq k (length l)).
Proof.
  revert k; induction l as [|[row col] l IH]; intros k; simpl; [reflexivity|].
  rewrite IH. reflexivity.
Qed.

(** X10.  Sprites are numbered in output order: the [index] of the k-th sprite
    is k, in every branch. *)
Theorem extractFromImage_indices self img :
  map sp_index (extractFromImage self img) =
  map Z.of_nat (seq 0 (length (extractFromImage self img))).
Proof.
  unfold extractFromImage.
  destruct (detectSpriteType img (analyzeImage img)) as [|regions w h|cols rows cs].
  - reflexivity.
  - simpl extract_detected.
    apply (fold_left_inv (fun acc : list Sprite =>
             map sp_index acc = map Z.of_nat (seq 0 (length acc)))); [|reflexivity].
    intros acc r _ Hacc. rewrite map_app, Hacc, length_app, Nat.add_1_r, seq_S, map_app.
    reflexivity.
  - rewrite extract_grid_eq, numbered_indices, length_numbered. reflexivity.
Qed.

(** ** Content Test *)

Lemma content_fold_bound d l v0 c0 :
  0 <= c0 <= v0 ->
  let '(v, c) := fold_left (content_pixel d) l (v0, c0) in
  0 <= c <= v /\ v <= v0 + Z.of_nat (length l).
Proof.
  revert v0 c0; induction l as [|i l IH]; intros v0 c0 H; simpl; [lia|].
  rewrite Zpos_P_of_succ_nat.
  destruct (gt (data_at d (i + 3)) 50).
  - destruct (negb _).
    + specialize (IH (v0 + 1) (c0 + 1) ltac:(lia)).
      destruct (fold_left _ _ _) as [v c]. lia.
    + specialize (IH (v0 + 1) c0 ltac:(lia)).
      destruct (fold_left _ _ _) as [v c]. lia.
  - specialize (IH v0 c0 H). destruct (fold_left _ _ _) as [v c]. lia.
Qed.

Lemma length_pixel_starts d :
  Z.of_nat (length (pixel_starts d)) = Z.max 0 (width d * height d).
Proof.
  unfold pixel_starts, data_length. rewrite length_map, zrange_length, Z.sub_0_r.
  destruct (divmod_of (width d * height d) 4 3) as [Hq _]; [lia | lia |].
  rewrite Hq. lia.
Qed.

Lemma hasContent_true_size self d :
  hasContent self d = true ->
  minPixelThreshold self < width d * height d /\ 50 < width d * height d.
Proof.
  unfold hasContent. assert (Hb := content_fold_bound d (pixel_starts d) 0 0 ltac:(lia)).
  assert (Hl := length_pixel_starts d).
  destruct (fold_left _ _ _) as [v c].
  intros Hc. apply andb_true_iff in Hc. destruct Hc as [H1 H2].
  apply Z.ltb_lt in H1, H2. lia.
Qed.

(** X11.  A buffer passes the Content Test only if it has more pixels than both
    [minPixelThreshold] and 50: the visible pixels it counts are at most
    its [width * height] pixels. *)
Theorem hasContent_needs_pixels self d :
  hasContent self d = true ->
  minPixelThreshold self < width d * height d /\ 50 < width d * height d.
Proof. apply hasContent_true_size. Qed.

Lemma hasContent_needs_pixels_witness :
  hasContent default_extractor (grid_cell grid_sheet 32 0 0) = true /\
  minPixelThreshold default_extractor < width (grid_cell grid_sheet 32 0 0) *
                                        height (grid_cell grid_sheet 32 0 0) /\
  50 < width (grid_cell grid_sheet 32 0 0) * height (grid_cell grid_sheet 32 0 0).
Proof.
  assert (H : hasContent default_extractor (grid_cell grid_sheet 32 0 0) = true)
    by (vm_compute; reflexivity).
  split; [exact H|]. exact (hasContent_needs_pixels default_extractor _ H).
Defined.

(** X12.  When the grid cells have no more pixels than [minPixelThreshold]
    ([cellSize * cellSize <= minPixelThreshold]), no tile passes the
    Content Test and a Grid detection extracts nothing.  With the default
    threshold of 500 this holds for every 16px grid (256 pixels per cell). *)
Theorem extractFromImage_grid_small_cells self img cols rows cs :
  cs * cs <= minPixelThreshold self ->
  detectSpriteType img (analyzeImage img) = DGrid cols rows cs ->
  extractFromImage self img = [].
Proof.
  intros Hsmall Hd. unfold extractFromImage. rewrite Hd, extract_grid_eq.
  assert (Hf : forall l, filter (cell_passes self img cs) l = []).
  { intros l. induction l as [|cell l IH]; simpl; [reflexivity|].
    destruct (cell_passes self img cs cell) eqn:E; [|exact IH].
    exfalso. unfold cell_passes, grid_cell in E.
    apply hasContent_true_size in E. simpl in E. lia. }
  rewrite Hf, firstn_nil. reflexivity.
Qed.

Lemma extractFromImage_grid_small_cells_witness :
  16 * 16 <= minPixelThreshold default_extractor /\
  detectSpriteType grid16_sheet (analyzeImage grid16_sheet) = DGrid 13 1 16 /\
  extractFromImage default_extractor grid16_sheet = [].
Proof.
  assert (Hd : detectSpriteType grid16_sheet (analyzeImage grid16_sheet) = DGrid 13 1 16)
    by (vm_compute; reflexivity).
  split; [simpl; lia|]. split; [exact Hd|].
  exact (extractFromImage_grid_small_cells default_extractor grid16_sheet 13 1 16
           ltac:(simpl; lia) Hd).
Defined.

(** ** analyzeImage counters *)

Lemma fold_left_sum {A B} (m : A -> Z) (g : B -> Z) (f : A -> B -> A) l a :
  (forall a b, In b l -> m (f a b) = m a + g b) ->
  m (fold_left f l a) = m a + fold_right (fun b s => g b + s) 0 l.
Proof.
  revert a; induction l as [|b l IH]; intros a Hstep; simpl; [lia|].
  rewrite IH by (intros; apply Hstep; simpl; auto).
  rewrite Hstep by (simpl; auto). lia.
Qed.

Lemma sum_indicator {B} (p : B -> bool) l :
  fold_right (fun b s => (if p b then 1 else 0) + s) 0 l = Z.of_nat (length (filter p l)).
Proof.
  induction l as [|b l IH]; simpl; [reflexivity|].
  rewrite IH. destruct (p b); simpl length; lia.
Qed.

Lemma sum_minus_indicator {B} (c k : Z) (p : B -> bool) l :
  fold_right (fun b s => (c - (if p b then k else 0)) + s) 0 l =
  c * Z.of_nat (length l) - k * Z.of_nat (length (filter p l)).
Proof.
  induction l as [|b l IH]; simpl; [lia|].
  rewrite IH. destruct (p b); simpl length; lia.
Qed.

Lemma count_interval a b lo n :
  Z.of_nat (length (filter (fun x => (a <=? x) && (x <? b)) (zrange_from lo n))) =
  Z.max 0 (Z.min b (lo + Z.of_nat n) - Z.max a lo).
Proof.
  revert lo; induction n as [|n IH]; intros lo; cbn [zrange_from filter]; [simpl; lia|].
  rewrite Nat2Z.inj_succ.
  destruct (Z.leb_spec a lo), (Z.ltb_spec lo b); simpl andb; cbn [length];
    rewrite ?Nat2Z.inj_succ, IH; lia.
Qed.

Lemma count_interval_zrange a b n :
  0 <= n ->
  Z.of_nat (length (filter (fun x => (a <=? x) && (x <? b)) (zrange 0 n))) =
  Z.max 0 (Z.min b n - Z.max a 0).
Proof. intros Hn. unfold zrange. rewrite count_interval. rewrite Z2Nat.id by lia. f_equal; lia. Qed.

Lemma isEdge_interior w h x y :
  (x <? 5) || (w - 5 <=? x) || (y <? 5) || (h - 5 <=? y) =
  negb (((5 <=? x) && (x <? w - 5)) && ((5 <=? y) && (y <? h - 5))).
Proof.
  destruct (Z.ltb_spec x 5), (Z.leb_spec (w - 5) x), (Z.ltb_spec y 5), (Z.leb_spec (h - 5) y),
           (Z.leb_spec 5 x), (Z.ltb_spec x (w - 5)), (Z.leb_spec 5 y), (Z.ltb_spec y (h - 5));
    simpl; reflexivity || lia.
Qed.

Lemma filter_ext_all {T} (f g : T -> bool) l :
  (forall x, f x = g x) -> filter f l = filter g l.
Proof. intros H. induction l as [|x l IH]; simpl; [|rewrite H, IH]; reflexivity. Qed.

Lemma count_negb {T} (p : T -> bool) l :
  Z.of_nat (length (filter (fun x => negb (p x)) l)) =
  Z.of_nat (length l) - Z.of_nat (length (filter p l)).
Proof.
  induction l as [|x l IH]; cbn [filter length]; [lia|].
  destruct (p x); cbn [negb length]; rewrite ?Nat2Z.inj_succ; lia.
Qed.

(** The edge pixels of one row: all of them on a row of the border band,
    the first and last 5 otherwise. *)
Lemma count_edge_row w jb :
  0 <= w ->
  Z.of_nat (length (filter (fun x => negb (((5 <=? x) && (x <? w - 5)) && jb)) (zrange 0 w))) =
  w - (if jb then Z.max 0 (w - 10) else 0).
Proof.
  intros Hw. rewrite count_negb, zrange_length, Z.sub_0_r, Z2Nat.id by lia.
  destruct jb.
  - rewrite (filter_ext_all _ (fun x => (5 <=? x) && (x <? w - 5)))
      by (intros; apply andb_true_r).
    rewrite count_interval_zrange by lia. lia.
  - rewrite (filter_ext_all _ (fun _ => false)) by (intros; apply andb_false_r).
    replace (filter (fun _ : Z => false) (zrange 0 w)) with (@nil Z)
      by (induction (zrange 0 w); simpl; auto). simpl. lia.
Qed.

Lemma analyze_row_gen data w h y l tp op et te :
  let '(tp', op', et', te') :=
    fold_left (fun st x => analyze_pixel data w h st y x) l (tp, op, et, te) in
  tp' + op' = tp + op + Z.of_nat (length l) /\ tp <= tp' /\ op <= op' /\
  et <= et' /\ et' - et <= te' - te /\
  te' = te + Z.of_nat (length (filter (fun x => negb (((5 <=? x) && (x <? w - 5)) &&
                                                     ((5 <=? y) && (y <? h - 5)))) l)).
Proof.
  revert tp op et te; induction l as [|x l IH]; intros tp op et te;
    cbn [fold_left filter length]; [lia|].
  unfold analyze_pixel at 2. rewrite isEdge_interior.
  destruct (lt _ 128), (negb _);
    match goal with
    | |- context [fold_left _ l (?a, ?b, ?c, ?d)] =>
        specialize (IH a b c d); destruct (fold_left _ l (a, b, c, d)) as [[[tp' op'] et'] te']
    end; cbn [length]; lia.
Qed.

Lemma analyze_rows_gen data w h rows tp op et te :
  0 <= w ->
  let '(tp', op', et', te') :=
    fold_left (fun st y => fold_left (fun st x => analyze_pixel data w h st y x) (zrange 0 w) st)
              rows (tp, op, et, te) in
  tp' + op' = tp + op + w * Z.of_nat (length rows) /\ tp <= tp' /\ op <= op' /\
  et <= et' /\ et' - et <= te' - te /\
  te' = te + w * Z.of_nat (length rows) -
        Z.max 0 (w - 10) * Z.of_nat (length (filter (fun y => (5 <=? y) && (y <? h - 5)) rows)).
Proof.
  intros Hw. revert tp op et te; induction rows as [|y rows IH]; intros tp op et te;
    cbn [fold_left filter length]; [lia|].
  assert (Hr := analyze_row_gen data w h y (zrange 0 w) tp op et te).
  rewrite zrange_length, Z.sub_0_r, Z2Nat.id in Hr by lia.
  destruct (fold_left (fun st x => analyze_pixel data w h st y x) (zrange 0 w) (tp, op, et, te))
    as [[[tp1 op1] et1] te1].
  rewrite count_edge_row in Hr by lia.
  specialize (IH tp1 op1 et1 te1).
  destruct (fold_left _ rows (tp1, op1, et1, te1)) as [[[tp' op'] et'] te'].
  destruct ((5 <=? y) && (y <? h - 5)); cbn [length]; lia.
Qed.

(** X13.  The counters of [analyzeImage]: the transparent pixels are at most all
    [width * height] pixels, the transparent edge pixels are at most the
    edge pixels, and the edge pixels are exactly those of the 5px border
    band: [width * height - max(0, width - 10) * max(0, height - 10)]. *)
Theorem analyzeImage_counters img :
  0 <= width img -> 0 <= height img ->
  let a := analyzeImage img in
  0 <= transparentPixels a <= width img * height img /\
  0 <= edgeTransparent a <= totalEdgePixels a /\
  totalEdgePixels a =
    width img * height img - Z.max 0 (width img - 10) * Z.max 0 (height img - 10).
Proof.
  intros Hw Hh. unfold analyzeImage.
  assert (H := analyze_rows_gen (canvas_of img) (width img) (height img) (zrange 0 (height img))
                 0 0 0 0 Hw).
  rewrite zrange_length, Z.sub_0_r, Z2Nat.id, count_interval_zrange in H by lia.
  destruct (fold_left _ (zrange 0 (height img)) (0, 0, 0, 0)) as [[[tp op] et] te].
  cbn [transparentPixels edgeTransparent totalEdgePixels].
  replace (Z.min (height img - 5) (height img) - Z.max 5 0) with (height img - 10) in H by lia.
  lia.
Qed.

Lemma analyzeImage_counters_witness :
  0 <= width two_sprites /\ 0 <= height two_sprites /\
  let a := analyzeImage two_sprites in
  0 <= transparentPixels a <= width two_sprites * height two_sprites /\
  0 <= edgeTransparent a <= totalEdgePixels a /\
  totalEdgePixels a =
    width two_sprites * height two_sprites -
    Z.max 0 (width two_sprites - 10) * Z.max 0 (height two_sprites - 10).
Proof.
  split; [simpl; lia|]. split; [simpl; lia|].
  apply analyzeImage_counters; simpl; lia.
Defined.

(** ** analyzeColors and colorToElement *)

Lemma pixel_starts_in_range d i :
  In i (pixel_starts d) -> 0 <= i /\ i + 3 < data_length d.
Proof.
  unfold pixel_starts. rewrite in_map_iff. intros [k [<- Hk]].
  rewrite zrange_In in Hk. unfold data_length in *.
  assert (Hd : (width d * height d * 4 + 3) / 4 = width d * height d).
  { rewrite Z.div_add_l by lia. change (3 / 4) with 0. lia. }
  rewrite Hd in Hk. lia.
Qed.

Lemma saturation_lt_bytes max min :
  0 <= min <= max -> max <= 255 -> saturation_lt max min = (max =? min).
Proof.
  intros Hm HM. unfold saturation_lt.
  destruct (Z.eqb_spec max min) as [->|Hne]; [reflexivity|].
  assert (Hd : 0 < 255 - Z.abs (max + min - 255)) by (destruct (Z.abs_spec (max + min - 255)); lia).
  rewrite (proj2 (Z.ltb_lt _ _) Hd).
  apply Z.ltb_ge. destruct (Z.abs_spec (max + min - 255)); lia.
Qed.

Ltac case_ifs :=
  repeat match goal with |- context [if ?c then _ else _] => destruct c end.

Lemma color_of_key r g b : In (color_of r g b) colorKeys.
Proof. unfold color_of. case_ifs; simpl; tauto. Qed.

Lemma NoDup_colorKeys : NoDup colorKeys.
Proof. unfold colorKeys. repeat constructor; simpl; intuition discriminate. Qed.

Lemma colorKeys_mapped c : In c colorKeys -> lookup colorMap c <> None.
Proof.
  unfold colorKeys. intros Hin.
  repeat (destruct Hin as [<- | Hin]; [discriminate|]). destruct Hin.
Qed.

Lemma bump_keys k l : map fst (bump k l) = map fst l.
Proof.
  induction l as [|[k' c] l IH]; simpl; auto.
  destruct (String.eqb k' k); simpl; congruence.
Qed.

Lemma bump_nonneg k l :
  Forall (fun e => 0 <= snd e) l -> Forall (fun e => 0 <= snd e) (bump k l).
Proof.
  induction l as [|[k' c] l IH]; simpl; auto. intros Hl. inversion Hl; subst.
  destruct (String.eqb k' k); constructor; simpl in *; auto; lia.
Qed.

Lemma bump_total k l : In k (map fst l) -> counts_total (bump k l) = counts_total l + 1.
Proof.
  induction l as [|[k' c] l IH]; simpl; [tauto|]. intros Hin.
  destruct (String.eqb_spec k' k) as [->|Hne]; simpl; [lia|].
  destruct Hin as [->|Hin]; [congruence|]. rewrite IH by assumption. lia.
Qed.

(** Invariant of the scan: the keys stay those of [colorCounts], every count
    is non-negative and [totalPixels] is their sum. *)
Lemma color_scan_inv d :
  map fst (snd (color_scan d)) = colorKeys /\
  Forall (fun e => 0 <= snd e) (snd (color_scan d)) /\
  fst (color_scan d) = counts_total (snd (color_scan d)).
Proof.
  unfold color_scan.
  apply (fold_left_inv (fun st => map fst (snd st) = colorKeys /\
           Forall (fun e => 0 <= snd e) (snd st) /\ fst st = counts_total (snd st))).
  - intros [t counts] i _ [Hk [Hn Ht]]. unfold color_pixel.
    destruct (bytes d (i + 3) <? 128); [simpl; auto|].
    destruct ((240 <? bytes d i) && (240 <? bytes d (i + 1)) && (240 <? bytes d (i + 2)));
      [simpl; auto|].
    cbn [fst snd] in *. split; [rewrite bump_keys; assumption|].
    split; [apply bump_nonneg; assumption|].
    rewrite bump_total; [lia|]. rewrite Hk. apply color_of_key.
  - simpl. split; [reflexivity|]. split; [repeat constructor; simpl; lia | reflexivity].
Qed.

Lemma color_scan_total_gen d l t c :
  fst (fold_left (color_pixel d) l (t, c)) = t + Z.of_nat (length (filter (counted d) l)).
Proof.
  revert t c; induction l as [|i l IH]; intros t c; cbn [fold_left filter]; [simpl; lia|].
  assert (Hstep : color_pixel d (t, c) i =
    if counted d i then (t + 1, bump (color_of (bytes d i) (bytes d (i + 1)) (bytes d (i + 2))) c)
    else (t, c)).
  { unfold color_pixel, counted. destruct (bytes d (i + 3) <? 128); [reflexivity|].
    destruct ((240 <? bytes d i) && (240 <? bytes d (i + 1)) && (240 <? bytes d (i + 2)));
      reflexivity. }
  rewrite Hstep. destruct (counted d i); cbn [length]; rewrite IH; lia.
Qed.

Lemma counts_total_nonneg l : Forall (fun e => 0 <= snd e) l -> 0 <= counts_total l.
Proof. induction 1; simpl; lia. Qed.

Lemma counts_total_zero l :
  Forall (fun e => 0 <= snd e) l -> (counts_total l = 0 <-> filter (fun e => 0 <? snd e) l = []).
Proof.
  induction 1 as [|e l He Hl IH]; simpl; [tauto|].
  assert (Ht := counts_total_nonneg l Hl).
  destruct (Z.ltb_spec 0 (snd e)); [split; [lia | discriminate]|].
  rewrite <- IH. lia.
Qed.

Lemma find_In_count l c : 0 < count_of l c -> In (c, count_of l c) l.
Proof.
  unfold count_of. destruct (find _ l) as [e|] eqn:E; [|lia]. intros _.
  destruct (find_some _ _ E) as [Hin Heq]. apply String.eqb_eq in Heq.
  destruct e as [k n]; simpl in *; subst; assumption.
Qed.

Lemma count_of_In l e : NoDup (map fst l) -> In e l -> count_of l (fst e) = snd e.
Proof.
  unfold count_of. induction l as [|e' l IH]; simpl; [tauto|]. intros Hnd Hin.
  inversion Hnd as [|? ? Hnotin Hnd']; subst.
  destruct Hin as [->|Hin]; [rewrite String.eqb_refl; reflexivity|].
  destruct (String.eqb_spec (fst e') (fst e)) as [Heq|]; [|auto].
  exfalso. apply Hnotin. rewrite Heq. apply in_map. assumption.
Qed.

Lemma NoDup_map_filter {A B} (f : A -> B) p l : NoDup (map f l) -> NoDup (map f (filter p l)).
Proof.
  induction l as [|a l IH]; simpl; auto. intros Hnd. inversion Hnd; subst.
  destruct (p a); simpl; auto. constructor; auto.
  rewrite in_map_iff. intros [x [Hx Hin]]. rewrite filter_In in Hin.
  apply H1. rewrite <- Hx. apply in_map. tauto.
Qed.

Lemma insert_by_count_perm e l : Permutation (insert_by_count e l) (e :: l).
Proof.
  induction l as [|e' l IH]; simpl; auto.
  destruct (snd e' <? snd e); auto.
  eapply perm_trans; [apply perm_skip, IH | apply perm_swap].
Qed.

Lemma insert_by_count_sorted e l :
  StronglySorted by_count l -> StronglySorted by_count (insert_by_count e l).
Proof.
  induction l as [|e' l IH]; simpl; intros Hs.
  - repeat constructor.
  - inversion Hs as [|? ? Hs' Hf]; subst. unfold by_count in *.
    destruct (Z.ltb_spec (snd e') (snd e)).
    + constructor; [assumption|]. constructor; [lia|].
      rewrite Forall_forall in Hf |- *. intros x Hx. specialize (Hf x Hx). lia.
    + constructor; [auto|]. rewrite Forall_forall in Hf |- *. intros x Hx.
      apply (Permutation_in _ (insert_by_count_perm e l)) in Hx.
      destruct Hx as [<-|Hx]; [lia | auto].
Qed.

Lemma sort_by_count_spec l :
  Permutation (sort_by_count l) l /\ StronglySorted by_count (sort_by_count l).
Proof.
  unfold sort_by_count.
  assert (H : forall acc, StronglySorted by_count acc ->
            Permutation (fold_left (fun acc e => insert_by_count e acc) l acc) (acc ++ l) /\
            StronglySorted by_count (fold_left (fun acc e => insert_by_count e acc) l acc)).
  { induction l as [|e l IH]; intros acc Hs; simpl.
    - rewrite app_nil_r. auto.
    - destruct (IH (insert_by_count e acc) (insert_by_count_sorted e acc Hs)) as [Hp Hs'].
      split; [|assumption]. eapply perm_trans; [exact Hp|].
      eapply perm_trans; [apply Permutation_app_tail, insert_by_count_perm|].
      apply Permutation_middle. }
  apply H. constructor.
Qed.

Lemma SSorted_app_rel {A} (R : A -> A -> Prop) l1 l2 :
  StronglySorted R (l1 ++ l2) -> forall x y, In x l1 -> In y l2 -> R x y.
Proof.
  induction l1 as [|a l1 IH]; simpl; [tauto|]. intros Hs x y Hx Hy.
  inversion Hs as [|? ? Hs' Hf]; subst. destruct Hx as [<-|Hx]; [|auto].
  rewrite Forall_forall in Hf. apply Hf, in_or_app. auto.
Qed.

Lemma SSorted_app_l {A} (R : A -> A -> Prop) l1 l2 :
  StronglySorted R (l1 ++ l2) -> StronglySorted R l1.
Proof.
  induction l1 as [|a l1 IH]; simpl; intros Hs; [constructor|].
  inversion Hs as [|? ? Hs' Hf]; subst. constructor; auto.
  rewrite Forall_forall in Hf |- *. intros x Hx. apply Hf, in_or_app. auto.
Qed.

Lemma SSorted_map_fst (g : String.string -> Z) l :
  StronglySorted by_count l -> (forall e, In e l -> g (fst e) = snd e) ->
  StronglySorted (fun c c' => g c' <= g c) (map fst l).
Proof.
  induction 1 as [|e l Hs IH Hf]; simpl; intros Hg; constructor.
  - apply IH. auto.
  - rewrite Forall_forall in Hf |- *. intros c Hc. apply in_map_iff in Hc as [x [<- Hx]].
    rewrite !Hg by auto. apply Hf. assumption.
Qed.

(** The entries [analyzeColors] takes from: [sorted] is the sorted list of the
    colours seen, [analyzeColors] its first three names. *)
Lemma analyzeColors_unfold d :
  let counts := snd (color_scan d) in
  let sorted := sort_by_count (filter (fun e => 0 <? snd e) counts) in
  analyzeColors d = map fst (firstn 3 sorted) /\
  Permutation sorted (filter (fun e => 0 <? snd e) counts) /\
  StronglySorted by_count sorted /\
  NoDup (map fst sorted) /\
  (forall e, In e sorted -> In e counts /\ 0 < snd e /\ count_of counts (fst e) = snd e).
Proof.
  destruct (color_scan_inv d) as [Hk _].
  unfold analyzeColors. destruct (color_scan d) as [t counts]. cbn [snd] in *. cbv zeta.
  destruct (sort_by_count_spec (filter (fun e => 0 <? snd e) counts)) as [Hp Hs].
  assert (Hnd : NoDup (map fst counts)) by (rewrite Hk; apply NoDup_colorKeys).
  split; [reflexivity|]. split; [assumption|]. split; [assumption|]. split.
  - eapply Permutation_NoDup; [apply Permutation_map, Permutation_sym, Hp|].
    apply NoDup_map_filter. assumption.
  - intros e He. apply (Permutation_in _ Hp) in He. rewrite filter_In, Z.ltb_lt in He.
    split; [tauto|]. split; [tauto|]. apply count_of_In; tauto.
Qed.

Lemma analyzeColors_keys d c :
  In c (analyzeColors d) -> In c colorKeys /\ 0 < count_of (snd (color_scan d)) c.
Proof.
  destruct (analyzeColors_unfold d) as [-> [_ [_ [_ He]]]].
  destruct (color_scan_inv d) as [Hk _].
  rewrite in_map_iff. intros [e [<- Hin]]. apply In_firstn_In in Hin.
  destruct (He e Hin) as [Hc [Hp Hv]]. split; [|lia].
  rewrite <- Hk. apply in_map. assumption.
Qed.

Local Open Scope string_scope.
(** X14.  For byte channels the [saturation < 0.15] test adds nothing to
    [max - min < 30]: a counted pixel is put in white, gray or black exactly
    when its channels differ by less than 30. *)
Theorem color_of_grayscale r g b :
  0 <= r <= 255 -> 0 <= g <= 255 -> 0 <= b <= 255 ->
  (In (color_of r g b) ["white"; "gray"; "black"] <->
   Z.max r (Z.max g b) - Z.min r (Z.min g b) < 30).
Proof.
  intros Hr Hg Hb. unfold color_of.
  rewrite saturation_lt_bytes by lia.
  replace ((Z.max r (Z.max g b) =? Z.min r (Z.min g b)) ||
           (Z.max r (Z.max g b) - Z.min r (Z.min g b) <? 30))
    with (Z.max r (Z.max g b) - Z.min r (Z.min g b) <? 30)
    by (destruct (Z.eqb_spec (Z.max r (Z.max g b)) (Z.min r (Z.min g b)));
        destruct (Z.ltb_spec (Z.max r (Z.max g b) - Z.min r (Z.min g b)) 30); simpl; lia).
  destruct (Z.ltb_spec (Z.max r (Z.max g b) - Z.min r (Z.min g b)) 30).
  - split; [intros; assumption|]. intros _. case_ifs; simpl; tauto.
  - split; [|lia]. case_ifs; simpl; intuition discriminate.
Qed.
Local Close Scope string_scope.

Local Open Scope string_scope.
Lemma color_of_grayscale_witness :
  In (color_of 200 190 185) ["white"; "gray"; "black"] /\ color_of 200 190 185 = "gray".
Proof.
  split; [apply (proj2 (color_of_grayscale 200 190 185 ltac:(lia) ltac:(lia) ltac:(lia))); lia
         | reflexivity].
Defined.
Local Close Scope string_scope.

(** X15.  [analyzeColors] returns at most three distinct colour names, each a
    key of [colorCounts] seen at least once, in non-increasing count order;
    any other colour seen has a count no larger than each returned one, and
    when fewer than three are returned every colour seen is returned. *)
Theorem analyzeColors_top3 img :
  let counts := snd (color_scan img) in
  let res := analyzeColors img in
  (length res <= 3)%nat /\ NoDup res /\
  (forall c, In c res -> In c colorKeys /\ 0 < count_of counts c) /\
  StronglySorted (fun c c' => count_of counts c' <= count_of counts c) res /\
  (forall c c', In c res -> 0 < count_of counts c' -> ~ In c' res ->
     count_of counts c' <= count_of counts c) /\
  ((length res < 3)%nat -> forall c, 0 < count_of counts c -> In c res).
Proof.
  cbv zeta.
  destruct (analyzeColors_unfold img) as [Hres [Hp [Hs [Hnd He]]]]. cbv zeta in *.
  set (counts := snd (color_scan img)) in *.
  set (sorted := sort_by_count (filter (fun e => 0 <? snd e) counts)) in *.
  assert (Hsplit := firstn_skipn 3 sorted).
  assert (Hin_sorted : forall c, 0 < count_of counts c -> In (c, count_of counts c) sorted).
  { intros c Hc. apply (Permutation_in _ (Permutation_sym Hp)).
    rewrite filter_In, Z.ltb_lt. split; [apply find_In_count|]; assumption. }
  split; [|split; [|split; [|split; [|split]]]].
  - rewrite Hres, length_map, length_firstn. lia.
  - rewrite Hres. rewrite <- Hsplit, map_app in Hnd. eapply NoDup_app_remove_r; exact Hnd.
  - intros c Hc. apply analyzeColors_keys. assumption.
  - rewrite Hres. apply SSorted_map_fst.
    + apply (SSorted_app_l _ _ (skipn 3 sorted)). rewrite Hsplit. assumption.
    + intros e Hin. apply He. apply In_firstn_In in Hin. assumption.
  - intros c c' Hc Hc' Hnot. rewrite Hres in Hc, Hnot.
    apply in_map_iff in Hc as [e [<- Hine]].
    assert (Hin' := Hin_sorted c' Hc'). rewrite <- Hsplit in Hin'.
    apply in_app_or in Hin' as [Hin'|Hin'].
    + exfalso. apply Hnot. apply (in_map fst) in Hin'. assumption.
    + rewrite <- Hsplit in Hs.
      assert (Hr := SSorted_app_rel _ _ _ Hs e _ Hine Hin'). unfold by_count in Hr.
      cbn [snd] in Hr. rewrite (proj2 (proj2 (He e (In_firstn_In _ _ _ Hine)))). assumption.
  - intros Hlen c Hc. rewrite Hres in Hlen |- *.
    rewrite length_map, length_firstn in Hlen.
    rewrite firstn_all2 by lia.
    exact (in_map fst _ _ (Hin_sorted c Hc)).
Qed.

(** X16.  [analyzeColors] returns no colour exactly when no pixel is counted:
    every pixel has alpha below 128 or all three channels above 240. *)
Theorem analyzeColors_empty img :
  analyzeColors img = [] <->
  forall i, In i (pixel_starts img) ->
    bytes img (i + 3) < 128 \/
    (240 < bytes img i /\ 240 < bytes img (i + 1) /\ 240 < bytes img (i + 2)).
Proof.
  destruct (color_scan_inv img) as [_ [Hn Ht]].
  destruct (analyzeColors_unfold img) as [Hres [Hp _]]. cbv zeta in *.
  assert (Htot := color_scan_total_gen img (pixel_starts img) 0 (map (fun k => (k, 0)) colorKeys)).
  fold (color_scan img) in Htot.
  set (sorted := sort_by_count _) in *.
  rewrite Hres.
  transitivity (filter (counted img) (pixel_starts img) = []).
  - assert (Hchain : filter (fun e => 0 <? snd e) (snd (color_scan img)) = [] <->
                     filter (counted img) (pixel_starts img) = []).
    { rewrite <- counts_total_zero by assumption. rewrite <- Ht, Htot.
      rewrite <- length_zero_iff_nil. lia. }
    rewrite <- Hchain. clearbody sorted. split.
    + intros H0. destruct sorted as [|e l]; [|discriminate].
      apply Permutation_nil in Hp. assumption.
    + intros H0. rewrite H0 in Hp. apply Permutation_sym, Permutation_nil in Hp.
      rewrite Hp. reflexivity.
  - split.
    + intros H0 i Hi. destruct (counted img i) eqn:E.
      * assert (Hf : In i (filter (counted img) (pixel_starts img))) by (apply filter_In; auto).
        rewrite H0 in Hf. destruct Hf.
      * unfold counted in E. apply andb_false_iff in E as [E|E]; apply negb_false_iff in E.
        -- left. apply Z.ltb_lt. assumption.
        -- right. rewrite !andb_true_iff, !Z.ltb_lt in E. tauto.
    + intros Hall. destruct (filter (counted img) (pixel_starts img)) as [|i l] eqn:E;
        [reflexivity|].
      assert (Hi : In i (filter (counted img) (pixel_starts img))) by (rewrite E; left; reflexivity).
      apply filter_In in Hi as [Hi Hc]. unfold counted in Hc.
      destruct (Hall i Hi) as [Ha | [H1 [H2 H3]]].
      * apply Z.ltb_lt in Ha. rewrite Ha in Hc. discriminate.
      * apply Z.ltb_lt in H1, H2, H3. rewrite H1, H2, H3 in Hc.
        rewrite andb_false_r in Hc. discriminate.
Qed.

(** X17.  In the colour fallback [colorToElement(extractor.analyzeColors(...))],
    whenever a colour is found the element is the one [colorMap] gives the
    most frequent colour: the default ["Psychic"] of a colour without an
    element is never reached. *)
Theorem colorToElement_analyzeColors img c rest :
  analyzeColors img = c :: rest ->
  lookup colorMap c = Some (colorToElement (analyzeColors img)).
Proof.
  intros Hres.
  assert (Hk : In c colorKeys) by (apply (analyzeColors_keys img); rewrite Hres; left; reflexivity).
  rewrite Hres. unfold colorToElement, colorToElement_loop.
  destruct (lookup colorMap c) eqn:E; [reflexivity|].
  exfalso. exact (colorKeys_mapped c Hk E).
Qed.

Local Open Scope string_scope.
Lemma colorToElement_analyzeColors_witness :
  analyzeColors (image_of 2 2 (fun _ _ => red)) = ["red"] /\
  lookup colorMap "red" = Some (colorToElement (analyzeColors (image_of 2 2 (fun _ _ => red)))) /\
  colorToElement (analyzeColors (image_of 2 2 (fun _ _ => red))) = "Fire".
Proof.
  split; [vm_compute; reflexivity|].
  split; [apply (colorToElement_analyzeColors _ "red" []); vm_compute; reflexivity
         | vm_compute; reflexivity].
Defined.
Local Close Scope string_scope.
